(** * electron-clipboard-observer: a polling clipboard observer

    Two variants of the observer live in the repository: the function-style
    [clipboardObserver] of [src/index.js] (module [Fn] below) and the
    class-style [ClipboardObserver] (module [Cls] below).  Both poll the
    Electron clipboard from a [setInterval] callback and compare what they
    read with the last value they remembered.

    The embedding is shallow: JavaScript values are a small inductive type,
    the host (clipboard, interval table, observable events) is a record, and
    the effectful code is written in a state-and-exception monad. *)

From Stdlib Require Import String List ZArith Bool Lia.
Import ListNotations.
Open Scope string_scope.
Open Scope list_scope.

(** ** JavaScript values *)

(** The part of Electron's [NativeImage] the observer uses: the two methods
    [isEmpty()] and [toDataURL()], whose results are fixed by the image. *)
Record NativeImage : Type := mkImage {
  isEmpty : bool;
  toDataURL : string
}.

(** Values that flow through the text channel: [undefined] (a variable or a
    field never assigned), a string, or the boolean produced by [!==]. *)
Inductive jsval : Type :=
| VUndefined
| VString (s : string)
| VBool (b : bool).

(** ToBoolean: [undefined] and the empty string are falsy. *)
Definition truthy (v : jsval) : bool :=
  match v with
  | VUndefined => false
  | VString EmptyString => false
  | VString (String _ _) => true
  | VBool b => b
  end.

(** [a === b] on these values: same type and same value. *)
Definition strict_eq (a b : jsval) : bool :=
  match a, b with
  | VUndefined, VUndefined => true
  | VString s, VString t => String.eqb s t
  | VBool x, VBool y => Bool.eqb x y
  | _, _ => false
  end.

(** [a !== b]. *)
Definition strict_neq (a b : jsval) : jsval := VBool (negb (strict_eq a b)).

(** [a && b] with both operands free of effects: the left operand when it is
    falsy, the right operand otherwise. *)
Definition js_and (a b : jsval) : jsval := if truthy a then b else a.

Infix "&&&" := js_and (at level 40, left associativity).

(** Exceptions: the [TypeError] of a method call on [undefined], and whatever
    a user callback raises. *)
Inductive exn : Type := TypeError | CallbackError.

Inductive res (A : Type) : Type :=
| Ok (a : A)
| Throw (e : exn).
Arguments Ok {A} a.
Arguments Throw {A} e.

(** The image variables hold [undefined] until they are assigned. *)
Definition jsimage : Type := option NativeImage.

(** [img.toDataURL()] on a variable that may be [undefined]. *)
Definition call_toDataURL (img : jsimage) : res string :=
  match img with
  | Some i => Ok (toDataURL i)
  | None => Throw TypeError
  end.

(** ** The host: clipboard, interval table, observable events *)

(** What a run of the observer lets the outside see: every clipboard read
    and every callback invocation with its two arguments. *)
Inductive event : Type :=
| ReadText
| ReadImage
| TextChange (text : string) (beforeText : jsval)
| ImageChange (image : NativeImage) (beforeImage : jsimage).

Definition is_read (e : event) : bool :=
  match e with
  | ReadText | ReadImage => true
  | _ => false
  end.

Definition is_call (e : event) : bool := negb (is_read e).

(** The callback invocations of a trace, in order. *)
Definition calls (tr : list event) : list event := filter is_call tr.

Inductive outcome : Type := Returns | Raises.

(** A user callback.  Its body is arbitrary user code; what matters to the
    observer is whether the call returns or raises, which may depend on the
    arguments and on everything that happened before the call. *)
Definition TextCallback : Type := list event -> string -> jsval -> outcome.
Definition ImageCallback : Type := list event -> NativeImage -> jsimage -> outcome.

(** A JavaScript number of milliseconds, or [undefined]. *)
Definition jsnum : Type := option Z.

(** The host.  [intervals] is the table of repeating tasks that are
    scheduled and not cancelled, each with the delay it was given;
    [next_id] is the next fresh timer handle. *)
Record Host : Type := mkHost {
  clip_text : string;
  clip_image : NativeImage;
  intervals : list (nat * jsnum);
  next_id : nat;
  trace : list event
}.

Definition log (e : event) (h : Host) : Host :=
  mkHost (clip_text h) (clip_image h) (intervals h) (next_id h) (trace h ++ [e]).

(** An external write to the clipboard. *)
Definition copy (text : string) (image : NativeImage) (h : Host) : Host :=
  mkHost text image (intervals h) (next_id h) (trace h).

Definition active (id : nat) (h : Host) : bool :=
  existsb (fun p => Nat.eqb (fst p) id) (intervals h).

(** ** A state-and-exception monad

    [O] is the observer's own mutable state (the fields of the instance, or
    the variables captured by the closure).  A computation that raises keeps
    the state it had reached. *)
Definition M (O A : Type) : Type := Host * O -> res A * (Host * O).

Definition ret {O A} (a : A) : M O A := fun s => (Ok a, s).

Definition bind {O A B} (c : M O A) (k : A -> M O B) : M O B :=
  fun s =>
    match c s with
    | (Ok a, s') => k a s'
    | (Throw e, s') => (Throw e, s')
    end.

Notation "x <- c ;; k" := (bind c (fun x => k))
  (at level 61, c at next level, right associativity).
Notation "c ;; k" := (bind c (fun _ => k))
  (at level 61, right associativity).

Definition get {O} : M O O := fun s => (Ok (snd s), s).
Definition modify {O} (f : O -> O) : M O unit := fun s => (Ok tt, (fst s, f (snd s))).
Definition lift {O A} (r : res A) : M O A := fun s => (r, s).

(** [clipboard.readText()] *)
Definition readText {O} : M O string :=
  fun s => (Ok (clip_text (fst s)), (log ReadText (fst s), snd s)).

(** [clipboard.readImage()]: always an image object, maybe an empty one. *)
Definition readImage {O} : M O NativeImage :=
  fun s => (Ok (clip_image (fst s)), (log ReadImage (fst s), snd s)).

(** [setInterval(fn, delay)]: a new entry in the table, a fresh handle. *)
Definition setInterval {O} (delay : jsnum) : M O nat :=
  fun s =>
    let h := fst s in
    (Ok (next_id h),
     (mkHost (clip_text h) (clip_image h) (intervals h ++ [(next_id h, delay)])
             (S (next_id h)) (trace h),
      snd s)).

(** [clearInterval(t)]: nothing happens when [t] is [undefined] or names no
    active task. *)
Definition clearInterval {O} (t : option nat) : M O unit :=
  fun s =>
    let h := fst s in
    match t with
    | None => (Ok tt, s)
    | Some id =>
        (Ok tt,
         (mkHost (clip_text h) (clip_image h)
                 (filter (fun p => negb (Nat.eqb (fst p) id)) (intervals h))
                 (next_id h) (trace h),
          snd s))
    end.

(** [textChange(text, beforeText)] *)
Definition callText {O} (cb : TextCallback) (text : string) (beforeText : jsval)
  : M O unit :=
  fun s =>
    let h := fst s in
    match cb (trace h) text beforeText with
    | Returns => (Ok tt, (log (TextChange text beforeText) h, snd s))
    | Raises => (Throw CallbackError, (log (TextChange text beforeText) h, snd s))
    end.

(** [imageChange(image, beforeImage)] *)
Definition callImage {O} (cb : ImageCallback) (image : NativeImage)
  (beforeImage : jsimage) : M O unit :=
  fun s =>
    let h := fst s in
    match cb (trace h) image beforeImage with
    | Returns => (Ok tt, (log (ImageChange image beforeImage) h, snd s))
    | Raises => (Throw CallbackError, (log (ImageChange image beforeImage) h, snd s))
    end.

(** ** Options *)

(** An object property: absent, or present with a value. *)
Inductive prop (A : Type) : Type :=
| Absent
| Present (v : A).
Arguments Absent {A}.
Arguments Present {A} v.

(** [const { p } = obj]: [undefined] when the property is absent. *)
Definition destructure {A} (p : prop (option A)) : option A :=
  match p with
  | Absent => None
  | Present v => v
  end.

Module Options.
(** The options object.  For the callbacks [None] stands for a property that
    is absent or [undefined]: the code only tests them for truthiness. *)
Record t : Type := mk {
  duration : prop jsnum;
  textChange : option TextCallback;
  imageChange : option ImageCallback
}.
End Options.

(** An optional callback used as a condition: a function is truthy,
    [undefined] is falsy. *)
Definition configured {A} (f : option A) : bool :=
  match f with
  | Some _ => true
  | None => false
  end.

(** [a || b] on two optional callbacks, as a condition. *)
Definition either {A B} (a : option A) (b : option B) : bool :=
  configured a || configured b.

(** ** The function-style variant, [src/index.js] *)

Module Fn.

(** [isDiffText]:
    [return beforeText && afterText && beforeText !== afterText;] *)
Definition isDiffText (beforeText afterText : jsval) : jsval :=
  beforeText &&& afterText &&& strict_neq beforeText afterText.

(** [isDiffImage]:
    [return afterImage && !afterImage.isEmpty() &&
            beforeImage.toDataURL() !== afterImage.toDataURL();]
    The operands to the right of an [&&] are evaluated only when the left one
    is truthy, and [beforeImage.toDataURL()] is evaluated before
    [afterImage.toDataURL()]. *)
Definition isDiffImage (beforeImage afterImage : jsimage) : res jsval :=
  match afterImage with
  | None => Ok VUndefined
  | Some a =>
      if negb (isEmpty a) then
        match call_toDataURL beforeImage with
        | Ok b => Ok (strict_neq (VString b) (VString (toDataURL a)))
        | Throw e => Throw e
        end
      else Ok (VBool false)
  end.

(** [const DEFAULT_OPTIONS = { duration: 500 };] *)
Definition DEFAULT_OPTIONS : Options.t :=
  Options.mk (Present (Some 500%Z)) None None.

(** [Object.assign({}, DEFAULT_OPTIONS, option)]: a property present in
    [option] replaces the default, even when its value is [undefined]. *)
Definition Object_assign (defaults option : Options.t) : Options.t :=
  Options.mk
    (match Options.duration option with
     | Present v => Present v
     | Absent => Options.duration defaults
     end)
    (match Options.textChange option with
     | Some f => Some f
     | None => Options.textChange defaults
     end)
    (match Options.imageChange option with
     | Some f => Some f
     | None => Options.imageChange defaults
     end).

(** The variables of one call of [clipboardObserver] that the closures
    share: [let timer], [let beforeText], [let beforeImage]. *)
Record Vars : Type := mkVars {
  timer : option nat;
  beforeText : jsval;
  beforeImage : jsimage
}.

Definition init : Vars := mkVars None VUndefined None.

Definition set_timer (t : option nat) (v : Vars) : Vars :=
  mkVars t (beforeText v) (beforeImage v).
Definition set_beforeText (x : jsval) (v : Vars) : Vars :=
  mkVars (timer v) x (beforeImage v).
Definition set_beforeImage (x : jsimage) (v : Vars) : Vars :=
  mkVars (timer v) (beforeText v) x.

(** The arrow function given to [setInterval] (lines 47-63) has two
    statements.  The first, [if (textChange) { ... }]: *)
Definition tick_text (options : Options.t) : M Vars unit :=
  match Options.textChange options with
  | Some textChange =>
      text <- readText ;;
      v <- get ;;
      if truthy (isDiffText (beforeText v) (VString text)) then
        callText textChange text (beforeText v) ;;
        modify (set_beforeText (VString text))
      else ret tt
  | None => ret tt
  end.

(** The second, [if (imageChange) { ... }]: *)
Definition tick_image (options : Options.t) : M Vars unit :=
  match Options.imageChange options with
  | Some imageChange =>
      image <- readImage ;;
      v <- get ;;
      d <- lift (isDiffImage (beforeImage v) (Some image)) ;;
      if truthy d then
        callImage imageChange image (beforeImage v) ;;
        modify (set_beforeImage (Some image))
      else ret tt
  | None => ret tt
  end.

Definition tick (options : Options.t) : M Vars unit :=
  tick_text options ;;
  tick_image options.

(** The merged options of a call: [Object.assign({}, DEFAULT_OPTIONS, option)]. *)
Definition merged (option : Options.t) : Options.t :=
  Object_assign DEFAULT_OPTIONS option.

(** The body of [clipboardObserver(option)] up to its [return]. *)
Definition clipboardObserver (option : Options.t) : M Vars unit :=
  let options := merged option in
  let duration := destructure (Options.duration options) in
  let textChange := Options.textChange options in
  let imageChange := Options.imageChange options in
  if either textChange imageChange then
    (if configured textChange then
       text <- readText ;; modify (set_beforeText (VString text))
     else ret tt) ;;
    (if configured imageChange then
       image <- readImage ;; modify (set_beforeImage (Some image))
     else ret tt) ;;
    id <- setInterval duration ;;
    modify (set_timer (Some id))
  else ret tt.

(** The [destroy()] method of the returned object. *)
Definition destroy : M Vars unit :=
  v <- get ;;
  clearInterval (timer v).

(** The state right after [clipboardObserver(option)] on host [h]. *)
Definition create (option : Options.t) (h : Host) : Host * Vars :=
  snd (clipboardObserver option (h, init)).

(** What can happen to a live observer: its owner calls [destroy()], the
    host fires the task with handle [id], or somebody writes the clipboard.
    An exception that leaves a tick is reported by the host and the task
    stays scheduled. *)
Inductive op : Type :=
| Destroy
| Tick (id : nat)
| Copy (text : string) (image : NativeImage).

Definition exec (options : Options.t) (o : op) (s : Host * Vars) : Host * Vars :=
  match o with
  | Destroy => snd (destroy s)
  | Tick id => if active id (fst s) then snd (tick options s) else s
  | Copy text image => (copy text image (fst s), snd s)
  end.

Definition run (options : Options.t) (ops : list op) (s : Host * Vars)
  : Host * Vars :=
  fold_left (fun s o => exec options o s) ops s.

End Fn.

(** ** The class-style variant, [ClipboardObserver] *)

Module Cls.

(** The fields of an instance. *)
Record ClipboardObserver : Type := mkObserver {
  timer : option nat;
  beforeText : jsval;
  beforeImage : jsimage;
  duration : jsnum;
  textChange : option TextCallback;
  imageChange : option ImageCallback
}.

(** The instance before the constructor body runs: only [duration = 500]
    has an initializer. *)
Definition init : ClipboardObserver :=
  mkObserver None VUndefined None (Some 500%Z) None None.

Definition set_timer (t : option nat) (o : ClipboardObserver) :=
  mkObserver t (beforeText o) (beforeImage o) (duration o) (textChange o) (imageChange o).
Definition set_beforeText (x : jsval) (o : ClipboardObserver) :=
  mkObserver (timer o) x (beforeImage o) (duration o) (textChange o) (imageChange o).
Definition set_beforeImage (x : jsimage) (o : ClipboardObserver) :=
  mkObserver (timer o) (beforeText o) x (duration o) (textChange o) (imageChange o).
Definition set_duration (x : jsnum) (o : ClipboardObserver) :=
  mkObserver (timer o) (beforeText o) (beforeImage o) x (textChange o) (imageChange o).
Definition set_textChange (x : option TextCallback) (o : ClipboardObserver) :=
  mkObserver (timer o) (beforeText o) (beforeImage o) (duration o) x (imageChange o).
Definition set_imageChange (x : option ImageCallback) (o : ClipboardObserver) :=
  mkObserver (timer o) (beforeText o) (beforeImage o) (duration o) (textChange o) x.

(** [isDiffText]: [return afterText && beforeText !== afterText;] *)
Definition isDiffText (beforeText afterText : jsval) : jsval :=
  afterText &&& strict_neq beforeText afterText.

(** [isDiffImage]: the same expression as in [src/index.js]. *)
Definition isDiffImage (beforeImage afterImage : jsimage) : res jsval :=
  match afterImage with
  | None => Ok VUndefined
  | Some a =>
      if negb (isEmpty a) then
        match call_toDataURL beforeImage with
        | Ok b => Ok (strict_neq (VString b) (VString (toDataURL a)))
        | Throw e => Throw e
        end
      else Ok (VBool false)
  end.

(** [clearTimer()]: [clearInterval(this.timer);] *)
Definition clearTimer : M ClipboardObserver unit :=
  this <- get ;;
  clearInterval (timer this).

(** [setClipboardDefaultValue()] *)
Definition setClipboardDefaultValue : M ClipboardObserver unit :=
  this <- get ;;
  (if configured (textChange this) then
     text <- readText ;; modify (set_beforeText (VString text))
   else ret tt) ;;
  this <- get ;;
  (if configured (imageChange this) then
     image <- readImage ;; modify (set_beforeImage (Some image))
   else ret tt).

(** The arrow function given to [setInterval] in [setTimer()] has two
    statements.  The first, [if (this.textChange) { ... }]: *)
Definition tick_text : M ClipboardObserver unit :=
  this <- get ;;
  match textChange this with
  | Some cb =>
      text <- readText ;;
      this <- get ;;
      if truthy (isDiffText (beforeText this) (VString text)) then
        callText cb text (beforeText this) ;;
        modify (set_beforeText (VString text))
      else ret tt
  | None => ret tt
  end.

(** The second, [if (this.imageChange) { ... }]: *)
Definition tick_image : M ClipboardObserver unit :=
  this <- get ;;
  match imageChange this with
  | Some cb =>
      image <- readImage ;;
      this <- get ;;
      d <- lift (isDiffImage (beforeImage this) (Some image)) ;;
      if truthy d then
        callImage cb image (beforeImage this) ;;
        modify (set_beforeImage (Some image))
      else ret tt
  | None => ret tt
  end.

Definition tick : M ClipboardObserver unit :=
  tick_text ;;
  tick_image.

(** [setTimer()]: [this.timer = setInterval(() => {...}, this.duration);] *)
Definition setTimer : M ClipboardObserver unit :=
  this <- get ;;
  id <- setInterval (duration this) ;;
  modify (set_timer (Some id)).

(** [start()]: [this.setClipboardDefaultValue(); this.setTimer();] *)
Definition start : M ClipboardObserver unit :=
  setClipboardDefaultValue ;;
  setTimer.

(** [stop()]: its body is [this.setTimer();]. *)
Definition stop : M ClipboardObserver unit :=
  setTimer.

(** [constructor(options)] *)
Definition constructor (options : Options.t) : M ClipboardObserver unit :=
  let duration := destructure (Options.duration options) in
  let textChange := Options.textChange options in
  let imageChange := Options.imageChange options in
  modify (set_duration duration) ;;
  modify (set_textChange textChange) ;;
  modify (set_imageChange imageChange) ;;
  this <- get ;;
  if either (Cls.textChange this) (Cls.imageChange this) then start else ret tt.

(** The state right after [new ClipboardObserver(options)] on host [h]. *)
Definition create (options : Options.t) (h : Host) : Host * ClipboardObserver :=
  snd (constructor options (h, init)).

(** What can happen to a live instance: a call of one of its methods, the
    host firing the task with handle [id], or a write to the clipboard.  An
    exception that leaves a tick is reported by the host and the task stays
    scheduled. *)
Inductive op : Type :=
| Start
| Stop
| ClearTimer
| Tick (id : nat)
| Copy (text : string) (image : NativeImage).

Definition exec (o : op) (s : Host * ClipboardObserver) : Host * ClipboardObserver :=
  match o with
  | Start => snd (start s)
  | Stop => snd (stop s)
  | ClearTimer => snd (clearTimer s)
  | Tick id => if active id (fst s) then snd (tick s) else s
  | Copy text image => (copy text image (fst s), snd s)
  end.

Definition run (ops : list op) (s : Host * ClipboardObserver)
  : Host * ClipboardObserver :=
  fold_left (fun s o => exec o s) ops s.

End Cls.

(** A host on which nothing has happened yet. *)
Definition fresh (text : string) (image : NativeImage) : Host :=
  mkHost text image [] 0 [].

(** What [setInterval] does to a host. *)
Definition scheduled (delay : jsnum) (h : Host) : Host :=
  mkHost (clip_text h) (clip_image h) (intervals h ++ [(next_id h, delay)])
         (S (next_id h)) (trace h).

(** Images and callbacks used in the examples. *)
Definition img_empty : NativeImage := mkImage true "data:image/png;base64,".
Definition img_one : NativeImage := mkImage false "data:image/png;base64,AAAA".
Definition img_two : NativeImage := mkImage false "data:image/png;base64,BBBB".
Definition text_ok : TextCallback := fun _ _ _ => Returns.
Definition image_ok : ImageCallback := fun _ _ _ => Returns.
Definition text_raises : TextCallback := fun _ _ _ => Raises.
Definition image_raises : ImageCallback := fun _ _ _ => Raises.

(** A host whose clipboard holds the text ["B"] and the image [img_two],
    with one task scheduled, and observers that remember ["A"] and
    [img_one]. *)
Definition ex_host : Host := mkHost "B" img_two [(0, Some 500%Z)] 1 [].

Definition ex_text_observer : Cls.ClipboardObserver :=
  Cls.mkObserver (Some 0) (VString "A") None (Some 500%Z) (Some text_raises) None.
Definition ex_image_observer : Cls.ClipboardObserver :=
  Cls.mkObserver (Some 0) VUndefined (Some img_one) (Some 500%Z) None (Some image_raises).

Definition ex_vars : Fn.Vars := Fn.mkVars (Some 0) (VString "A") (Some img_one).
Definition ex_text_options : Options.t := Options.mk Absent (Some text_raises) None.
Definition ex_image_options : Options.t := Options.mk Absent None (Some image_raises).

(** ** Vocabulary of the statements *)

Definition is_ReadImage (e : event) : bool :=
  match e with
  | ReadImage => true
  | _ => false
  end.

(** The [readImage()] calls of a trace. *)
Definition image_reads (tr : list event) : list event := filter is_ReadImage tr.

(** The events of seeding: one read per configured callback, text first. *)
Definition seed_events {A B} (f : option A) (g : option B) : list event :=
  (if configured f then [ReadText] else []) ++
  (if configured g then [ReadImage] else []).

Definition is_TextChange (e : event) : bool :=
  match e with
  | TextChange _ _ => true
  | _ => false
  end.

Definition is_ImageChange (e : event) : bool :=
  match e with
  | ImageChange _ _ => true
  | _ => false
  end.

(** The invocations of [textChange], and of [imageChange], in a trace. *)
Definition text_calls (tr : list event) : list event := filter is_TextChange tr.
Definition image_calls (tr : list event) : list event := filter is_ImageChange tr.

(** A callback invocation that carries a real change: the new text is not
    empty and is not the old value; the new image is not empty and the old
    one is an image with another [toDataURL()]. *)
Definition genuine (e : event) : Prop :=
  match e with
  | TextChange text beforeText => text <> "" /\ beforeText <> VString text
  | ImageChange image beforeImage =>
      isEmpty image = false /\
      exists b, beforeImage = Some b /\ toDataURL b <> toDataURL image
  | _ => True
  end.

(** The instance after [start(); start()] on an untouched host: handle 0 is
    active and [this.timer] holds handle 1. *)
Definition ex_started_twice : Host * Cls.ClipboardObserver :=
  snd (Cls.start (snd (Cls.start (fresh "A" img_empty, Cls.init)))).

(** An observer of both channels whose callbacks return. *)
Definition ex_ok_observer : Cls.ClipboardObserver :=
  Cls.mkObserver (Some 0) (VString "A") (Some img_one) (Some 500%Z)
                 (Some text_ok) (Some image_ok).
Definition ex_ok_options : Options.t :=
  Options.mk Absent (Some text_ok) (Some image_ok).

(** ** Facts about values *)

Lemma truthy_string (s : string) : truthy (VString s) = true <-> s <> "".
Proof.
  destruct s as [|c s]; simpl; split; intro H; congruence.
Qed.

Lemma strict_eq_string (s t : string) :
  strict_eq (VString s) (VString t) = true <-> s = t.
Proof. simpl. apply String.eqb_eq. Qed.

Lemma strict_neq_string (s t : string) :
  truthy (strict_neq (VString s) (VString t)) = true <-> s <> t.
Proof.
  unfold strict_neq. simpl. rewrite negb_true_iff.
  destruct (String.eqb_spec s t); split; intro; congruence.
Qed.

Lemma truthy_js_and (a b : jsval) :
  truthy (a &&& b) = truthy a && truthy b.
Proof.
  unfold js_and. destruct (truthy a) eqn:E; simpl; auto.
Qed.

(** ** The text predicate *)

(** The class-style predicate is the one the specification describes. *)
Lemma Cls_isDiffText_spec (previousText currentText : string) :
  truthy (Cls.isDiffText (VString previousText) (VString currentText)) = true
  <-> currentText <> "" /\ currentText <> previousText.
Proof.
  unfold Cls.isDiffText. rewrite truthy_js_and, andb_true_iff.
  rewrite truthy_string, strict_neq_string.
  split; intros [H1 H2]; split; auto.
Qed.

(** A last-known text that was never assigned differs from every non-empty
    text as well. *)
Lemma Cls_isDiffText_undefined (currentText : string) :
  truthy (Cls.isDiffText VUndefined (VString currentText)) = true
  <-> currentText <> "".
Proof.
  unfold Cls.isDiffText. rewrite truthy_js_and. simpl.
  rewrite andb_true_r. apply truthy_string.
Qed.

(** The function-style predicate has one more conjunct, [beforeText]. *)
Lemma Fn_isDiffText_spec (previousText currentText : string) :
  truthy (Fn.isDiffText (VString previousText) (VString currentText)) = true
  <-> previousText <> "" /\ currentText <> "" /\ currentText <> previousText.
Proof.
  unfold Fn.isDiffText. rewrite !truthy_js_and, !andb_true_iff.
  rewrite !truthy_string, strict_neq_string.
  split.
  - intros [[H1 H2] H3]. repeat split; auto.
  - intros (H1 & H2 & H3). repeat split; auto.
Qed.

Lemma isDiffText_agree (beforeText afterText : jsval) :
  truthy beforeText = true ->
  Fn.isDiffText beforeText afterText = Cls.isDiffText beforeText afterText.
Proof.
  intro H. unfold Fn.isDiffText, Cls.isDiffText.
  unfold js_and at 2. now rewrite H.
Qed.

(** On strings the two predicates disagree exactly when the previous text is
    empty and the current one is not. *)
Lemma isDiffText_disagree_iff (previousText currentText : string) :
  truthy (Fn.isDiffText (VString previousText) (VString currentText))
  <> truthy (Cls.isDiffText (VString previousText) (VString currentText))
  <-> previousText = "" /\ currentText <> "".
Proof.
  destruct previousText as [|a p], currentText as [|b c].
  - cbn. split; [congruence|]. intros [_ H]. congruence.
  - cbn. split; [intros _; split; congruence|]. intros _. discriminate.
  - cbn. split; [congruence|]. intros [H _]. discriminate.
  - rewrite isDiffText_agree by reflexivity.
    split; [congruence|]. intros [H _]. discriminate.
Qed.

(** C1: in [src/index.js] the predicate does not report the change from the
    empty text to ["A"], although ["A"] is non-empty and differs from the
    previous text; the class-style predicate reports it.  With an empty
    previous text the [src/index.js] predicate is falsy for every current
    text. *)
Theorem C1_Fn_isDiffText_empty_previous :
  let previousText := "" in
  let currentText := "A" in
  currentText <> "" /\ currentText <> previousText
  /\ Fn.isDiffText (VString previousText) (VString currentText) = VString ""
  /\ truthy (Fn.isDiffText (VString previousText) (VString currentText)) = false
  /\ truthy (Cls.isDiffText (VString previousText) (VString currentText)) = true
  /\ (forall text : string,
        truthy (Fn.isDiffText (VString previousText) (VString text)) = false).
Proof.
  cbv zeta. repeat split; try reflexivity; discriminate.
Qed.

(** C9: the two variants of [isDiffText] disagree on the pair of strings
    [("", "A")]: the function-style one returns the falsy [""], the
    class-style one returns [true]. *)
Theorem C9_isDiffText_variants_differ :
  Fn.isDiffText (VString "") (VString "A") = VString ""
  /\ Cls.isDiffText (VString "") (VString "A") = VBool true
  /\ truthy (Fn.isDiffText (VString "") (VString "A"))
     <> truthy (Cls.isDiffText (VString "") (VString "A")).
Proof.
  repeat split; try reflexivity. simpl. discriminate.
Qed.

(** ** The image predicate *)

Lemma isDiffImage_same : Fn.isDiffImage = Cls.isDiffImage.
Proof. reflexivity. Qed.

Lemma Cls_isDiffImage_spec (previousImage : NativeImage) (currentImage : jsimage) :
  exists v, Cls.isDiffImage (Some previousImage) currentImage = Ok v /\
    (truthy v = true <->
     exists img, currentImage = Some img /\ isEmpty img = false /\
                 toDataURL img <> toDataURL previousImage).
Proof.
  destruct currentImage as [img|]; simpl.
  - destruct (isEmpty img) eqn:E; simpl.
    + exists (VBool false). split; [reflexivity|]. simpl. split; [discriminate|].
      intros (i & Hi & He & _). injection Hi as <-. congruence.
    + eexists. split; [reflexivity|].
      rewrite strict_neq_string. split.
      * intro H. exists img. repeat split; auto.
      * intros (i & Hi & _ & Hd). injection Hi as <-. auto.
  - exists VUndefined. split; [reflexivity|]. simpl. split; [discriminate|].
    intros (i & Hi & _). discriminate.
Qed.

(** With no previous image, a present and non-empty current image makes the
    predicate raise: [beforeImage.toDataURL()] is called on [undefined]. *)
Lemma isDiffImage_undefined_previous (img : NativeImage) :
  isEmpty img = false ->
  Cls.isDiffImage None (Some img) = Throw TypeError.
Proof. intro H. simpl. now rewrite H. Qed.

(** C4: for a previous image and a current image (possibly absent), in both
    variants [isDiffImage] returns, and its result is truthy exactly when the
    current image is present, is not empty according to [isEmpty()], and its
    [toDataURL()] string differs from the previous image's. *)
Theorem C4_isDiffImage_iff (previousImage : NativeImage) (currentImage : jsimage) :
  (exists v, Fn.isDiffImage (Some previousImage) currentImage = Ok v /\
     (truthy v = true <->
      exists img, currentImage = Some img /\ isEmpty img = false /\
                  toDataURL img <> toDataURL previousImage))
  /\
  (exists v, Cls.isDiffImage (Some previousImage) currentImage = Ok v /\
     (truthy v = true <->
      exists img, currentImage = Some img /\ isEmpty img = false /\
                  toDataURL img <> toDataURL previousImage)).
Proof.
  rewrite isDiffImage_same. split; apply Cls_isDiffImage_spec.
Qed.

(** ** Timers *)

Lemma Cls_setTimer_eq (s : Host * Cls.ClipboardObserver) :
  Cls.setTimer s =
  (Ok tt, (scheduled (Cls.duration (snd s)) (fst s),
           Cls.set_timer (Some (next_id (fst s))) (snd s))).
Proof. reflexivity. Qed.

(** Seeding returns, and touches neither the interval table nor the
    clipboard nor the configuration. *)
Lemma Cls_seed_frame (s : Host * Cls.ClipboardObserver) :
  let s' := snd (Cls.setClipboardDefaultValue s) in
  fst (Cls.setClipboardDefaultValue s) = Ok tt
  /\ intervals (fst s') = intervals (fst s)
  /\ next_id (fst s') = next_id (fst s)
  /\ clip_text (fst s') = clip_text (fst s)
  /\ clip_image (fst s') = clip_image (fst s)
  /\ Cls.timer (snd s') = Cls.timer (snd s)
  /\ Cls.duration (snd s') = Cls.duration (snd s)
  /\ Cls.textChange (snd s') = Cls.textChange (snd s)
  /\ Cls.imageChange (snd s') = Cls.imageChange (snd s).
Proof.
  destruct s as [h [tm bt bi d tc ic]].
  unfold Cls.setClipboardDefaultValue, bind, get. simpl.
  destruct tc, ic; simpl; repeat split.
Qed.

Lemma Cls_start_eq (s : Host * Cls.ClipboardObserver) :
  let s' := snd (Cls.setClipboardDefaultValue s) in
  Cls.start s =
  (Ok tt, (scheduled (Cls.duration (snd s)) (fst s'),
           Cls.set_timer (Some (next_id (fst s))) (snd s'))).
Proof.
  destruct (Cls_seed_frame s) as (Hr & _ & Hn & _ & _ & _ & Hd & _).
  cbv zeta in *. unfold Cls.start, bind.
  destruct (Cls.setClipboardDefaultValue s) as [r s'] eqn:E. simpl in *.
  subst r. rewrite Cls_setTimer_eq, Hn, Hd. reflexivity.
Qed.

Lemma Cls_start_intervals (s : Host * Cls.ClipboardObserver) :
  intervals (fst (snd (Cls.start s))) =
  intervals (fst s) ++ [(next_id (fst s), Cls.duration (snd s))].
Proof.
  rewrite Cls_start_eq. simpl.
  destruct (Cls_seed_frame s) as (_ & Hi & Hn & _). cbv zeta in *.
  now rewrite Hi, Hn.
Qed.

Lemma Cls_start_next_id (s : Host * Cls.ClipboardObserver) :
  next_id (fst (snd (Cls.start s))) = S (next_id (fst s)).
Proof.
  rewrite Cls_start_eq. simpl.
  destruct (Cls_seed_frame s) as (_ & _ & Hn & _). cbv zeta in *.
  now rewrite Hn.
Qed.

Lemma Cls_start_duration (s : Host * Cls.ClipboardObserver) :
  Cls.duration (snd (snd (Cls.start s))) = Cls.duration (snd s).
Proof.
  rewrite Cls_start_eq. simpl.
  now destruct (Cls_seed_frame s) as (_ & _ & _ & _ & _ & _ & Hd & _).
Qed.

(** [destroy()] of the function-style variant cancels the task whose handle
    the closure holds, and does nothing when there is none. *)
Lemma Fn_destroy_cancels (s : Host * Fn.Vars) (id : nat) :
  Fn.timer (snd s) = Some id ->
  active id (fst (snd (Fn.destroy s))) = false.
Proof.
  intro H. unfold Fn.destroy, bind, get. rewrite H. unfold active. simpl.
  induction (intervals (fst s)) as [|[i d] l IH]; simpl; auto.
  destruct (Nat.eqb i id) eqn:E; simpl; auto. now rewrite E.
Qed.

Lemma Fn_destroy_idle (s : Host * Fn.Vars) :
  Fn.timer (snd s) = None -> Fn.destroy s = (Ok tt, s).
Proof. intro H. unfold Fn.destroy, bind, get. now rewrite H. Qed.

Lemma Fn_destroy_after_create (option : Options.t) (h : Host) :
  intervals h = [] ->
  intervals (fst (snd (Fn.destroy (Fn.create option h)))) = [].
Proof.
  intro H. unfold Fn.create, Fn.clipboardObserver, Fn.destroy, bind, get, either.
  destruct (Options.textChange (Fn.merged option)),
           (Options.imageChange (Fn.merged option)); simpl; rewrite ?H; simpl;
    rewrite ?Nat.eqb_refl; reflexivity.
Qed.

(** C2: [stop()] of the class-style variant runs [setTimer()]: it cancels no
    task and schedules one more.  After [new ClipboardObserver({textChange})]
    and [stop()] two tasks are active, the first one among them; on a dormant
    instance [stop()] schedules a task as well. *)
Theorem C2_Cls_stop_schedules_instead_of_cancelling :
  (forall s : Host * Cls.ClipboardObserver,
      intervals (fst (snd (Cls.stop s))) =
      intervals (fst s) ++ [(next_id (fst s), Cls.duration (snd s))])
  /\ (let s := Cls.create (Options.mk Absent (Some text_ok) None)
                          (fresh "A" img_empty) in
      intervals (fst s) = [(0, None)]
      /\ intervals (fst (snd (Cls.stop s))) = [(0, None); (1, None)]
      /\ active 0 (fst (snd (Cls.stop s))) = true)
  /\ (let s := Cls.create (Options.mk Absent None None) (fresh "A" img_empty) in
      intervals (fst s) = []
      /\ intervals (fst (snd (Cls.stop s))) = [(0, None)]).
Proof.
  split; [intro s; reflexivity|].
  split; cbv zeta; repeat split; reflexivity.
Qed.

(** C3 fails as stated: two consecutive calls of [start()] on a fresh
    instance leave two active timers, not one. *)
Lemma C3_start_twice_two_timers :
  let s := snd (Cls.start (snd (Cls.start (fresh "A" img_empty, Cls.init)))) in
  intervals (fst s) = [(0, Some 500%Z); (1, Some 500%Z)]
  /\ length (intervals (fst s)) <> 1.
Proof.
  cbv zeta. split; [reflexivity|]. simpl. discriminate.
Qed.

(** C3, amended: every call of [start()] schedules exactly one new timer,
    with the instance's [duration], keeps every timer that was active, and
    stores the new handle in [this.timer]; the number of active timers grows
    by one with each call. *)
Theorem C3_start_adds_one_timer (s : Host * Cls.ClipboardObserver) :
  let s' := snd (Cls.start s) in
  intervals (fst s') = intervals (fst s) ++ [(next_id (fst s), Cls.duration (snd s))]
  /\ length (intervals (fst s')) = S (length (intervals (fst s)))
  /\ Cls.timer (snd s') = Some (next_id (fst s)).
Proof.
  cbv zeta. rewrite Cls_start_intervals. split; [reflexivity|]. split.
  - rewrite length_app. simpl. lia.
  - rewrite Cls_start_eq. reflexivity.
Qed.

(** The function-style variant schedules its timer with the default of 500
    when the option object has no [duration]. *)
Lemma Fn_default_duration (f : TextCallback) (g : option ImageCallback) (h : Host) :
  intervals (fst (Fn.create (Options.mk Absent (Some f) g) h)) =
  intervals h ++ [(next_id h, Some 500%Z)].
Proof.
  unfold Fn.create, Fn.clipboardObserver, bind. simpl.
  destruct g; reflexivity.
Qed.

(** C8: the class-style constructor assigns [this.duration = duration] even
    when the options carry no [duration], so the initializer's 500 is
    replaced by [undefined], and that is the delay [setInterval] gets. *)
Theorem C8_Cls_default_duration_lost :
  (forall (f : option TextCallback) (g : option ImageCallback) (h : Host),
      Cls.duration (snd (Cls.create (Options.mk Absent f g) h)) = None)
  /\ (forall (f : TextCallback) (g : option ImageCallback) (h : Host),
      intervals (fst (Cls.create (Options.mk Absent (Some f) g) h)) =
      intervals h ++ [(next_id h, None)])
  /\ Cls.duration Cls.init = Some 500%Z
  /\ intervals (fst (Cls.create (Options.mk Absent (Some text_ok) None)
                                (fresh "A" img_empty))) = [(0, None)].
Proof.
  split; [|split; [|split; reflexivity]].
  - intros f g h. unfold Cls.create, Cls.constructor, bind, modify, get. simpl.
    unfold either. simpl. destruct f, g; simpl; try reflexivity;
      rewrite Cls_start_duration; reflexivity.
  - intros f g h. unfold Cls.create, Cls.constructor, bind, modify, get. simpl.
    unfold either. simpl. rewrite Cls_start_intervals. reflexivity.
Qed.

(** ** One tick, statement by statement *)

(** The predicates are used through their lemmas from here on. *)
Arguments Fn.isDiffText : simpl never.
Arguments Cls.isDiffText : simpl never.
Arguments Fn.isDiffImage : simpl never.
Arguments Cls.isDiffImage : simpl never.

Ltac run_text cbopt :=
  unfold bind, get, readText, modify, ret; simpl;
  destruct cbopt as [cb|]; [simpl|reflexivity];
  match goal with
  | |- context [truthy ?d] => destruct (truthy d); [|reflexivity]
  end;
  unfold callText; simpl;
  match goal with
  | |- context [cb ?tr ?x ?y] => destruct (cb tr x y); reflexivity
  end.

Ltac run_image cbopt diff :=
  unfold bind, get, readImage, modify, lift, ret; simpl;
  destruct cbopt as [cb|]; [simpl|reflexivity];
  destruct diff as [d|e]; [|reflexivity];
  destruct (truthy d); [|reflexivity];
  unfold callImage; simpl;
  match goal with
  | |- context [cb ?tr ?x ?y] => destruct (cb tr x y); reflexivity
  end.

Lemma Cls_tick_text_eq (h : Host) (o : Cls.ClipboardObserver) :
  Cls.tick_text (h, o) =
  match Cls.textChange o with
  | None => (Ok tt, (h, o))
  | Some cb =>
      let text := clip_text h in
      if truthy (Cls.isDiffText (Cls.beforeText o) (VString text)) then
        match cb (trace h ++ [ReadText]) text (Cls.beforeText o) with
        | Returns =>
            (Ok tt, (log (TextChange text (Cls.beforeText o)) (log ReadText h),
                     Cls.set_beforeText (VString text) o))
        | Raises =>
            (Throw CallbackError,
             (log (TextChange text (Cls.beforeText o)) (log ReadText h), o))
        end
      else (Ok tt, (log ReadText h, o))
  end.
Proof. unfold Cls.tick_text. run_text (Cls.textChange o). Qed.

Lemma Cls_tick_image_eq (h : Host) (o : Cls.ClipboardObserver) :
  Cls.tick_image (h, o) =
  match Cls.imageChange o with
  | None => (Ok tt, (h, o))
  | Some cb =>
      let image := clip_image h in
      match Cls.isDiffImage (Cls.beforeImage o) (Some image) with
      | Throw e => (Throw e, (log ReadImage h, o))
      | Ok d =>
          if truthy d then
            match cb (trace h ++ [ReadImage]) image (Cls.beforeImage o) with
            | Returns =>
                (Ok tt, (log (ImageChange image (Cls.beforeImage o)) (log ReadImage h),
                         Cls.set_beforeImage (Some image) o))
            | Raises =>
                (Throw CallbackError,
                 (log (ImageChange image (Cls.beforeImage o)) (log ReadImage h), o))
            end
          else (Ok tt, (log ReadImage h, o))
      end
  end.
Proof.
  unfold Cls.tick_image.
  run_image (Cls.imageChange o) (Cls.isDiffImage (Cls.beforeImage o) (Some (clip_image h))).
Qed.

Lemma Fn_tick_text_eq (options : Options.t) (h : Host) (v : Fn.Vars) :
  Fn.tick_text options (h, v) =
  match Options.textChange options with
  | None => (Ok tt, (h, v))
  | Some cb =>
      let text := clip_text h in
      if truthy (Fn.isDiffText (Fn.beforeText v) (VString text)) then
        match cb (trace h ++ [ReadText]) text (Fn.beforeText v) with
        | Returns =>
            (Ok tt, (log (TextChange text (Fn.beforeText v)) (log ReadText h),
                     Fn.set_beforeText (VString text) v))
        | Raises =>
            (Throw CallbackError,
             (log (TextChange text (Fn.beforeText v)) (log ReadText h), v))
        end
      else (Ok tt, (log ReadText h, v))
  end.
Proof. unfold Fn.tick_text. run_text (Options.textChange options). Qed.

Lemma Fn_tick_image_eq (options : Options.t) (h : Host) (v : Fn.Vars) :
  Fn.tick_image options (h, v) =
  match Options.imageChange options with
  | None => (Ok tt, (h, v))
  | Some cb =>
      let image := clip_image h in
      match Fn.isDiffImage (Fn.beforeImage v) (Some image) with
      | Throw e => (Throw e, (log ReadImage h, v))
      | Ok d =>
          if truthy d then
            match cb (trace h ++ [ReadImage]) image (Fn.beforeImage v) with
            | Returns =>
                (Ok tt, (log (ImageChange image (Fn.beforeImage v)) (log ReadImage h),
                         Fn.set_beforeImage (Some image) v))
            | Raises =>
                (Throw CallbackError,
                 (log (ImageChange image (Fn.beforeImage v)) (log ReadImage h), v))
            end
          else (Ok tt, (log ReadImage h, v))
      end
  end.
Proof.
  unfold Fn.tick_image.
  run_image (Options.imageChange options) (Fn.isDiffImage (Fn.beforeImage v) (Some (clip_image h))).
Qed.

(** ** Seeding and the first tick *)

Lemma strict_eq_refl (v : jsval) : strict_eq v v = true.
Proof.
  destruct v as [|s|b]; simpl; auto using String.eqb_refl.
  now destruct b.
Qed.

Lemma Cls_isDiffText_same (v : jsval) : truthy (Cls.isDiffText v v) = false.
Proof.
  unfold Cls.isDiffText, strict_neq. rewrite truthy_js_and, strict_eq_refl.
  simpl. apply andb_false_r.
Qed.

Lemma Fn_isDiffText_same (v : jsval) : truthy (Fn.isDiffText v v) = false.
Proof.
  unfold Fn.isDiffText, strict_neq. rewrite truthy_js_and, strict_eq_refl.
  simpl. apply andb_false_r.
Qed.

Lemma isDiffImage_same_image (i : NativeImage) :
  Cls.isDiffImage (Some i) (Some i) = Ok (VBool false).
Proof.
  unfold Cls.isDiffImage, strict_neq. simpl.
  destruct (isEmpty i); simpl; [reflexivity|].
  now rewrite String.eqb_refl.
Qed.

Lemma calls_app (tr tr' : list event) : calls (tr ++ tr') = calls tr ++ calls tr'.
Proof. apply filter_app. Qed.

Lemma calls_seed_events {A B} (f : option A) (g : option B) (tr : list event) :
  calls (tr ++ seed_events f g) = calls tr.
Proof.
  rewrite calls_app. unfold seed_events.
  destruct f, g; simpl; now rewrite app_nil_r.
Qed.

(** A tick that finds what seeding found: it returns, reads once per
    configured callback, calls nothing and changes no variable. *)
Lemma Cls_tick_quiet (h : Host) (o : Cls.ClipboardObserver) :
  (configured (Cls.textChange o) = true -> Cls.beforeText o = VString (clip_text h)) ->
  (configured (Cls.imageChange o) = true -> Cls.beforeImage o = Some (clip_image h)) ->
  fst (Cls.tick (h, o)) = Ok tt
  /\ snd (snd (Cls.tick (h, o))) = o
  /\ trace (fst (snd (Cls.tick (h, o)))) =
     trace h ++ seed_events (Cls.textChange o) (Cls.imageChange o).
Proof.
  intros Ht Hi. unfold Cls.tick, bind. rewrite Cls_tick_text_eq.
  unfold seed_events.
  destruct (Cls.textChange o) as [f|] eqn:Ef; cbv zeta.
  - rewrite (Ht eq_refl), Cls_isDiffText_same, Cls_tick_image_eq.
    destruct (Cls.imageChange o) as [g|] eqn:Eg; cbv zeta; simpl.
    + rewrite (Hi eq_refl), isDiffImage_same_image. simpl.
      now rewrite <- app_assoc.
    + auto.
  - rewrite Cls_tick_image_eq.
    destruct (Cls.imageChange o) as [g|] eqn:Eg; cbv zeta; simpl.
    + rewrite (Hi eq_refl), isDiffImage_same_image. simpl. auto.
    + now rewrite app_nil_r.
Qed.

Lemma Fn_tick_quiet (options : Options.t) (h : Host) (v : Fn.Vars) :
  (configured (Options.textChange options) = true ->
   Fn.beforeText v = VString (clip_text h)) ->
  (configured (Options.imageChange options) = true ->
   Fn.beforeImage v = Some (clip_image h)) ->
  fst (Fn.tick options (h, v)) = Ok tt
  /\ snd (snd (Fn.tick options (h, v))) = v
  /\ trace (fst (snd (Fn.tick options (h, v)))) =
     trace h ++ seed_events (Options.textChange options) (Options.imageChange options).
Proof.
  intros Ht Hi. unfold Fn.tick, bind. rewrite Fn_tick_text_eq.
  unfold seed_events.
  destruct (Options.textChange options) as [f|] eqn:Ef; cbv zeta.
  - rewrite (Ht eq_refl), Fn_isDiffText_same, Fn_tick_image_eq.
    destruct (Options.imageChange options) as [g|] eqn:Eg; cbv zeta; simpl.
    + rewrite (Hi eq_refl), isDiffImage_same, isDiffImage_same_image. simpl.
      now rewrite <- app_assoc.
    + auto.
  - rewrite Fn_tick_image_eq.
    destruct (Options.imageChange options) as [g|] eqn:Eg; cbv zeta; simpl.
    + rewrite (Hi eq_refl), isDiffImage_same, isDiffImage_same_image. simpl. auto.
    + now rewrite app_nil_r.
Qed.

(** What seeding leaves behind. *)
Lemma Cls_seed_eq (h : Host) (o : Cls.ClipboardObserver) :
  let s' := snd (Cls.setClipboardDefaultValue (h, o)) in
  trace (fst s') = trace h ++ seed_events (Cls.textChange o) (Cls.imageChange o)
  /\ Cls.beforeText (snd s') =
     (if configured (Cls.textChange o) then VString (clip_text h) else Cls.beforeText o)
  /\ Cls.beforeImage (snd s') =
     (if configured (Cls.imageChange o) then Some (clip_image h) else Cls.beforeImage o).
Proof.
  destruct o as [tm bt bi d tc ic].
  unfold Cls.setClipboardDefaultValue, bind, get, seed_events. simpl.
  destruct tc, ic; simpl; repeat split; rewrite <- ?app_assoc, ?app_nil_r; reflexivity.
Qed.

Lemma Cls_start_seeds (s0 : Host * Cls.ClipboardObserver) :
  let s := snd (Cls.start s0) in
  trace (fst s) =
    trace (fst s0) ++ seed_events (Cls.textChange (snd s0)) (Cls.imageChange (snd s0))
  /\ Cls.beforeText (snd s) =
     (if configured (Cls.textChange (snd s0)) then VString (clip_text (fst s0))
      else Cls.beforeText (snd s0))
  /\ Cls.beforeImage (snd s) =
     (if configured (Cls.imageChange (snd s0)) then Some (clip_image (fst s0))
      else Cls.beforeImage (snd s0))
  /\ clip_text (fst s) = clip_text (fst s0)
  /\ clip_image (fst s) = clip_image (fst s0)
  /\ Cls.textChange (snd s) = Cls.textChange (snd s0)
  /\ Cls.imageChange (snd s) = Cls.imageChange (snd s0).
Proof.
  cbv zeta. rewrite Cls_start_eq. simpl.
  destruct (Cls_seed_frame s0) as (_ & _ & _ & Hct & Hci & _ & _ & Htc & Hic).
  destruct s0 as [h o].
  destruct (Cls_seed_eq h o) as (Htr & Hbt & Hbi).
  cbv zeta in *. simpl in *. repeat split; assumption.
Qed.

Lemma Cls_start_then_tick_quiet (s0 : Host * Cls.ClipboardObserver) :
  let s := snd (Cls.start s0) in
  fst (Cls.tick s) = Ok tt
  /\ snd (snd (Cls.tick s)) = snd s
  /\ calls (trace (fst (snd (Cls.tick s)))) = calls (trace (fst s0)).
Proof.
  cbv zeta.
  destruct (Cls_start_seeds s0) as (Htr & Hbt & Hbi & Hct & Hci & Htc & Hic).
  cbv zeta in *.
  destruct (snd (Cls.start s0)) as [h o] eqn:E. simpl in *.
  destruct (Cls_tick_quiet h o) as (Hr & Ho & Ht).
  - intro H. rewrite Hbt, <- Htc, H. now rewrite Hct.
  - intro H. rewrite Hbi, <- Hic, H. now rewrite Hci.
  - repeat split; auto.
    rewrite Ht, calls_seed_events, Htr. apply calls_seed_events.
Qed.

Lemma Cls_create_eq (options : Options.t) (h : Host) :
  let this := Cls.mkObserver None VUndefined None
                (destructure (Options.duration options))
                (Options.textChange options) (Options.imageChange options) in
  Cls.create options h =
  if either (Options.textChange options) (Options.imageChange options)
  then snd (Cls.start (h, this))
  else (h, this).
Proof.
  unfold Cls.create, Cls.constructor, bind, modify, get. simpl.
  destruct (either _ _); reflexivity.
Qed.

Lemma Fn_merged_callbacks (option : Options.t) :
  Options.textChange (Fn.merged option) = Options.textChange option
  /\ Options.imageChange (Fn.merged option) = Options.imageChange option.
Proof.
  destruct option as [d f g]. unfold Fn.merged, Fn.Object_assign. simpl.
  destruct f, g; auto.
Qed.

(** The delay the function-style variant gives to [setInterval]. *)
Lemma Fn_merged_duration (option : Options.t) :
  destructure (Options.duration (Fn.merged option)) =
  match Options.duration option with
  | Absent => Some 500%Z
  | Present v => v
  end.
Proof. destruct option as [[|v] f g]; reflexivity. Qed.

Lemma Fn_create_seeds (option : Options.t) (h : Host) :
  let s := Fn.create option h in
  let f := Options.textChange option in
  let g := Options.imageChange option in
  trace (fst s) = trace h ++ seed_events f g
  /\ Fn.beforeText (snd s) = (if configured f then VString (clip_text h) else VUndefined)
  /\ Fn.beforeImage (snd s) = (if configured g then Some (clip_image h) else None)
  /\ clip_text (fst s) = clip_text h
  /\ clip_image (fst s) = clip_image h
  /\ intervals (fst s) =
     (if either f g
      then intervals h ++ [(next_id h, destructure (Options.duration (Fn.merged option)))]
      else intervals h)
  /\ Fn.timer (snd s) = (if either f g then Some (next_id h) else None).
Proof.
  destruct option as [d f g]. unfold Fn.create, Fn.clipboardObserver, bind.
  destruct f, g; simpl; repeat split; rewrite <- ?app_assoc, ?app_nil_r; reflexivity.
Qed.

Lemma Fn_create_then_tick_quiet (option : Options.t) (h : Host) :
  let s := Fn.create option h in
  fst (Fn.tick (Fn.merged option) s) = Ok tt
  /\ snd (snd (Fn.tick (Fn.merged option) s)) = snd s
  /\ calls (trace (fst (snd (Fn.tick (Fn.merged option) s)))) = calls (trace h).
Proof.
  cbv zeta.
  destruct (Fn_create_seeds option h) as (Htr & Hbt & Hbi & Hct & Hci & _).
  cbv zeta in *.
  destruct (Fn.create option h) as [h' v] eqn:E. simpl in *.
  destruct (Fn_merged_callbacks option) as (Hf & Hg).
  destruct (Fn_tick_quiet (Fn.merged option) h' v) as (Hr & Ho & Ht).
  - rewrite Hf. intro H. rewrite Hbt, H. now rewrite Hct.
  - rewrite Hg. intro H. rewrite Hbi, H. now rewrite Hci.
  - repeat split; auto.
    rewrite Ht, calls_seed_events, Htr. apply calls_seed_events.
Qed.

Lemma Cls_create_seeds (options : Options.t) (h : Host) :
  let s := Cls.create options h in
  let f := Options.textChange options in
  let g := Options.imageChange options in
  trace (fst s) = trace h ++ seed_events f g
  /\ Cls.beforeText (snd s) = (if configured f then VString (clip_text h) else VUndefined)
  /\ Cls.beforeImage (snd s) = (if configured g then Some (clip_image h) else None)
  /\ clip_text (fst s) = clip_text h
  /\ clip_image (fst s) = clip_image h
  /\ Cls.textChange (snd s) = f
  /\ Cls.imageChange (snd s) = g.
Proof.
  cbv zeta. rewrite Cls_create_eq. cbv zeta.
  destruct (either _ _) eqn:E.
  - match goal with |- context [Cls.start ?s0] =>
      destruct (Cls_start_seeds s0) as (Htr & Hbt & Hbi & Hct & Hci & Htc & Hic)
    end.
    cbv zeta in *. simpl in *.
    rewrite Htr, Hbt, Hbi, Hct, Hci, Htc, Hic.
    destruct (Options.textChange options), (Options.imageChange options);
      repeat split; reflexivity.
  - unfold either in E. apply orb_false_iff in E. destruct E as [E1 E2].
    unfold seed_events. simpl. rewrite E1, E2. simpl.
    rewrite app_nil_r. repeat split; reflexivity.
Qed.

Lemma Cls_create_then_tick_quiet (options : Options.t) (h : Host) :
  let s := Cls.create options h in
  fst (Cls.tick s) = Ok tt
  /\ snd (snd (Cls.tick s)) = snd s
  /\ calls (trace (fst (snd (Cls.tick s)))) = calls (trace h).
Proof.
  cbv zeta.
  destruct (Cls_create_seeds options h) as (Htr & Hbt & Hbi & Hct & Hci & Htc & Hic).
  cbv zeta in *.
  destruct (Cls.create options h) as [h' o] eqn:E. simpl in *.
  destruct (Cls_tick_quiet h' o) as (Hr & Ho & Ht).
  - rewrite Htc. intro H. rewrite Hbt, H. now rewrite Hct.
  - rewrite Hic. intro H. rewrite Hbi, H. now rewrite Hci.
  - repeat split; auto.
    rewrite Ht, calls_seed_events, Htr. apply calls_seed_events.
Qed.

(** C5: construction (in both variants) and [start()] read the clipboard once
    per configured callback and store what they read as the last-known
    values, before any tick can run; a tick that then finds the clipboard as
    it was returns normally, invokes no callback and changes no last-known
    value. *)
Theorem C5_seeded_before_first_tick
  (d : prop jsnum) (f : option TextCallback) (g : option ImageCallback)
  (h : Host) (s0 : Host * Cls.ClipboardObserver) :
  let options := Options.mk d f g in
  (let s := Fn.create options h in
   trace (fst s) = trace h ++ seed_events f g
   /\ Fn.beforeText (snd s) = (if configured f then VString (clip_text h) else VUndefined)
   /\ Fn.beforeImage (snd s) = (if configured g then Some (clip_image h) else None)
   /\ fst (Fn.tick (Fn.merged options) s) = Ok tt
   /\ snd (snd (Fn.tick (Fn.merged options) s)) = snd s
   /\ calls (trace (fst (snd (Fn.tick (Fn.merged options) s)))) = calls (trace h))
  /\
  (let s := Cls.create options h in
   trace (fst s) = trace h ++ seed_events f g
   /\ Cls.beforeText (snd s) = (if configured f then VString (clip_text h) else VUndefined)
   /\ Cls.beforeImage (snd s) = (if configured g then Some (clip_image h) else None)
   /\ fst (Cls.tick s) = Ok tt
   /\ snd (snd (Cls.tick s)) = snd s
   /\ calls (trace (fst (snd (Cls.tick s)))) = calls (trace h))
  /\
  (let s := snd (Cls.start s0) in
   trace (fst s) =
     trace (fst s0) ++ seed_events (Cls.textChange (snd s0)) (Cls.imageChange (snd s0))
   /\ Cls.beforeText (snd s) =
      (if configured (Cls.textChange (snd s0)) then VString (clip_text (fst s0))
       else Cls.beforeText (snd s0))
   /\ Cls.beforeImage (snd s) =
      (if configured (Cls.imageChange (snd s0)) then Some (clip_image (fst s0))
       else Cls.beforeImage (snd s0))
   /\ fst (Cls.tick s) = Ok tt
   /\ snd (snd (Cls.tick s)) = snd s
   /\ calls (trace (fst (snd (Cls.tick s)))) = calls (trace (fst s0))).
Proof.
  cbv zeta. split; [|split].
  - destruct (Fn_create_seeds (Options.mk d f g) h) as (Htr & Hbt & Hbi & _).
    destruct (Fn_create_then_tick_quiet (Options.mk d f g) h) as (Hr & Ho & Hc).
    cbv zeta in *. repeat split; assumption.
  - destruct (Cls_create_seeds (Options.mk d f g) h) as (Htr & Hbt & Hbi & _).
    destruct (Cls_create_then_tick_quiet (Options.mk d f g) h) as (Hr & Ho & Hc).
    cbv zeta in *. repeat split; assumption.
  - destruct (Cls_start_seeds s0) as (Htr & Hbt & Hbi & _).
    destruct (Cls_start_then_tick_quiet s0) as (Hr & Ho & Hc).
    cbv zeta in *. repeat split; assumption.
Qed.

(** ** What a tick can and cannot touch *)

Lemma Cls_tick_text_frame (h : Host) (o : Cls.ClipboardObserver) :
  let s' := snd (Cls.tick_text (h, o)) in
  clip_text (fst s') = clip_text h
  /\ clip_image (fst s') = clip_image h
  /\ intervals (fst s') = intervals h
  /\ next_id (fst s') = next_id h
  /\ Cls.timer (snd s') = Cls.timer o
  /\ Cls.duration (snd s') = Cls.duration o
  /\ Cls.textChange (snd s') = Cls.textChange o
  /\ Cls.imageChange (snd s') = Cls.imageChange o
  /\ Cls.beforeImage (snd s') = Cls.beforeImage o
  /\ exists tr, trace (fst s') = trace h ++ tr
                /\ image_reads tr = []
                /\ (Cls.textChange o = None -> tr = []).
Proof.
  cbv zeta. rewrite Cls_tick_text_eq.
  destruct (Cls.textChange o) as [cb|] eqn:E; cbv zeta.
  - destruct (truthy _).
    + destruct (cb _ _ _); simpl; repeat split; auto;
        exists [ReadText; TextChange (clip_text h) (Cls.beforeText o)];
        rewrite <- app_assoc; repeat split; auto; discriminate.
    + simpl; repeat split; auto. exists [ReadText]. repeat split; auto; discriminate.
  - simpl; repeat split; auto. exists []. now rewrite app_nil_r.
Qed.

Lemma Cls_tick_image_frame (h : Host) (o : Cls.ClipboardObserver) :
  let s' := snd (Cls.tick_image (h, o)) in
  clip_text (fst s') = clip_text h
  /\ clip_image (fst s') = clip_image h
  /\ intervals (fst s') = intervals h
  /\ next_id (fst s') = next_id h
  /\ Cls.timer (snd s') = Cls.timer o
  /\ Cls.duration (snd s') = Cls.duration o
  /\ Cls.textChange (snd s') = Cls.textChange o
  /\ Cls.imageChange (snd s') = Cls.imageChange o
  /\ Cls.beforeText (snd s') = Cls.beforeText o
  /\ exists tr, trace (fst s') = trace h ++ tr
                /\ (Cls.imageChange o = None -> tr = []).
Proof.
  cbv zeta. rewrite Cls_tick_image_eq.
  destruct (Cls.imageChange o) as [cb|] eqn:E; cbv zeta.
  - destruct (Cls.isDiffImage _ _) as [d|e].
    + destruct (truthy d).
      * destruct (cb _ _ _); simpl; repeat split; auto;
          exists [ReadImage; ImageChange (clip_image h) (Cls.beforeImage o)];
          rewrite <- app_assoc; repeat split; auto; discriminate.
      * simpl; repeat split; auto. exists [ReadImage]. split; auto; discriminate.
    + simpl; repeat split; auto. exists [ReadImage]. split; auto; discriminate.
  - simpl; repeat split; auto. exists []. now rewrite app_nil_r.
Qed.

(** A tick is the text statement followed, unless it raised, by the image
    statement. *)
Lemma Cls_tick_eq (s : Host * Cls.ClipboardObserver) :
  Cls.tick s =
  match Cls.tick_text s with
  | (Ok _, s1) => Cls.tick_image s1
  | (Throw e, s1) => (Throw e, s1)
  end.
Proof. reflexivity. Qed.

Lemma Cls_tick_frame (s : Host * Cls.ClipboardObserver) :
  let s' := snd (Cls.tick s) in
  clip_text (fst s') = clip_text (fst s)
  /\ clip_image (fst s') = clip_image (fst s)
  /\ intervals (fst s') = intervals (fst s)
  /\ next_id (fst s') = next_id (fst s)
  /\ Cls.timer (snd s') = Cls.timer (snd s)
  /\ Cls.duration (snd s') = Cls.duration (snd s)
  /\ Cls.textChange (snd s') = Cls.textChange (snd s)
  /\ Cls.imageChange (snd s') = Cls.imageChange (snd s)
  /\ exists tr, trace (fst s') = trace (fst s) ++ tr
                /\ (Cls.imageChange (snd s) = None -> image_reads tr = [])
                /\ (Cls.textChange (snd s) = None ->
                    Cls.imageChange (snd s) = None -> tr = []).
Proof.
  cbv zeta. rewrite Cls_tick_eq. destruct s as [h o].
  destruct (Cls_tick_text_frame h o)
    as (T1 & T2 & T3 & T4 & T5 & T6 & T7 & T8 & T9 & tr1 & Ttr & Tir & Tnil).
  cbv zeta in *.
  destruct (Cls.tick_text (h, o)) as [[[]|e] [h1 o1]]; simpl in *.
  - destruct (Cls_tick_image_frame h1 o1)
      as (I1 & I2 & I3 & I4 & I5 & I6 & I7 & I8 & I9 & tr2 & Itr & Inil).
    cbv zeta in *.
    destruct (Cls.tick_image (h1, o1)) as [r [h2 o2]]; simpl in *.
    repeat split; try congruence.
    exists (tr1 ++ tr2). rewrite Itr, Ttr, app_assoc. repeat split.
    + intro H. rewrite Inil by congruence. now rewrite app_nil_r.
    + intros H1 H2. rewrite Tnil, Inil by congruence. reflexivity.
  - repeat split; try congruence.
    exists tr1. repeat split; auto.
Qed.

Lemma Fn_tick_text_frame (options : Options.t) (h : Host) (v : Fn.Vars) :
  let s' := snd (Fn.tick_text options (h, v)) in
  clip_text (fst s') = clip_text h
  /\ clip_image (fst s') = clip_image h
  /\ intervals (fst s') = intervals h
  /\ next_id (fst s') = next_id h
  /\ Fn.timer (snd s') = Fn.timer v
  /\ Fn.beforeImage (snd s') = Fn.beforeImage v
  /\ exists tr, trace (fst s') = trace h ++ tr
                /\ image_reads tr = []
                /\ (Options.textChange options = None -> tr = [] /\ snd s' = v).
Proof.
  cbv zeta. rewrite Fn_tick_text_eq.
  destruct (Options.textChange options) as [cb|] eqn:E; cbv zeta.
  - destruct (truthy _).
    + destruct (cb _ _ _); simpl; repeat split; auto;
        exists [ReadText; TextChange (clip_text h) (Fn.beforeText v)];
        rewrite <- app_assoc; repeat split; auto; discriminate.
    + simpl; repeat split; auto. exists [ReadText]. repeat split; auto; discriminate.
  - simpl; repeat split; auto. exists []. now rewrite app_nil_r.
Qed.

Lemma Fn_tick_image_frame (options : Options.t) (h : Host) (v : Fn.Vars) :
  let s' := snd (Fn.tick_image options (h, v)) in
  clip_text (fst s') = clip_text h
  /\ clip_image (fst s') = clip_image h
  /\ intervals (fst s') = intervals h
  /\ next_id (fst s') = next_id h
  /\ Fn.timer (snd s') = Fn.timer v
  /\ Fn.beforeText (snd s') = Fn.beforeText v
  /\ exists tr, trace (fst s') = trace h ++ tr
                /\ (Options.imageChange options = None -> tr = [] /\ snd s' = v).
Proof.
  cbv zeta. rewrite Fn_tick_image_eq.
  destruct (Options.imageChange options) as [cb|] eqn:E; cbv zeta.
  - destruct (Fn.isDiffImage _ _) as [d|e].
    + destruct (truthy d).
      * destruct (cb _ _ _); simpl; repeat split; auto;
          exists [ReadImage; ImageChange (clip_image h) (Fn.beforeImage v)];
          rewrite <- app_assoc; repeat split; auto; discriminate.
      * simpl; repeat split; auto. exists [ReadImage]. split; auto; discriminate.
    + simpl; repeat split; auto. exists [ReadImage]. split; auto; discriminate.
  - simpl; repeat split; auto. exists []. now rewrite app_nil_r.
Qed.

Lemma Fn_tick_eq (options : Options.t) (s : Host * Fn.Vars) :
  Fn.tick options s =
  match Fn.tick_text options s with
  | (Ok _, s1) => Fn.tick_image options s1
  | (Throw e, s1) => (Throw e, s1)
  end.
Proof. reflexivity. Qed.

Lemma Fn_tick_frame (options : Options.t) (s : Host * Fn.Vars) :
  let s' := snd (Fn.tick options s) in
  clip_text (fst s') = clip_text (fst s)
  /\ clip_image (fst s') = clip_image (fst s)
  /\ intervals (fst s') = intervals (fst s)
  /\ next_id (fst s') = next_id (fst s)
  /\ Fn.timer (snd s') = Fn.timer (snd s)
  /\ exists tr, trace (fst s') = trace (fst s) ++ tr
                /\ (Options.imageChange options = None -> image_reads tr = [])
                /\ (Options.textChange options = None ->
                    Options.imageChange options = None -> tr = [] /\ snd s' = snd s).
Proof.
  cbv zeta. rewrite Fn_tick_eq. destruct s as [h v].
  destruct (Fn_tick_text_frame options h v)
    as (T1 & T2 & T3 & T4 & T5 & T6 & tr1 & Ttr & Tir & Tnil).
  cbv zeta in *.
  destruct (Fn.tick_text options (h, v)) as [[[]|e] [h1 v1]]; simpl in *.
  - destruct (Fn_tick_image_frame options h1 v1)
      as (I1 & I2 & I3 & I4 & I5 & I6 & tr2 & Itr & Inil).
    cbv zeta in *.
    destruct (Fn.tick_image options (h1, v1)) as [r [h2 v2]]; simpl in *.
    repeat split; try congruence.
    exists (tr1 ++ tr2). rewrite Itr, Ttr, app_assoc.
    split; [reflexivity|]. split.
    + intro H. destruct (Inil H) as [-> _]. now rewrite app_nil_r.
    + intros H1 H2. destruct (Tnil H1) as [-> <-]. destruct (Inil H2) as [-> <-].
      split; reflexivity.
  - repeat split; try congruence.
    exists tr1. split; [assumption|]. split; [auto|].
    intros H1 H2. destruct (Tnil H1). auto.
Qed.

(** ** Whole runs *)

Lemma image_reads_app (tr tr' : list event) :
  image_reads (tr ++ tr') = image_reads tr ++ image_reads tr'.
Proof. apply filter_app. Qed.

Lemma image_reads_seed_text {A} (f : option A) :
  image_reads (seed_events f (@None ImageCallback)) = [].
Proof. destruct f; reflexivity. Qed.

(** With no [imageChange], no operation of the class-style instance reads
    the clipboard image, and none configures the callback. *)
Lemma Cls_exec_no_image_read (o : Cls.op) (s : Host * Cls.ClipboardObserver) :
  Cls.imageChange (snd s) = None ->
  Cls.imageChange (snd (Cls.exec o s)) = None
  /\ image_reads (trace (fst (Cls.exec o s))) = image_reads (trace (fst s)).
Proof.
  intro H. destruct o as [| | |id|text image]; simpl.
  - destruct (Cls_start_seeds s) as (Htr & _ & _ & _ & _ & _ & Hic).
    cbv zeta in *. rewrite Hic, Htr, H, image_reads_app, image_reads_seed_text.
    now rewrite app_nil_r.
  - split; [assumption|reflexivity].
  - unfold Cls.clearTimer, bind, get. destruct (Cls.timer (snd s)); simpl; auto.
  - destruct (active id (fst s)); auto.
    destruct (Cls_tick_frame s) as (_ & _ & _ & _ & _ & _ & _ & Hic & tr & Htr & Hir & _).
    cbv zeta in *. rewrite Hic, Htr, image_reads_app, (Hir H).
    now rewrite app_nil_r.
  - auto.
Qed.

Lemma Cls_run_no_image_read (ops : list Cls.op) (s : Host * Cls.ClipboardObserver) :
  Cls.imageChange (snd s) = None ->
  image_reads (trace (fst (Cls.run ops s))) = image_reads (trace (fst s)).
Proof.
  revert s. induction ops as [|o ops IH]; intros s H; [reflexivity|].
  unfold Cls.run in *. simpl.
  destruct (Cls_exec_no_image_read o s H) as [H1 H2].
  now rewrite IH, H2.
Qed.

Lemma Fn_exec_no_image_read (options : Options.t) (o : Fn.op) (s : Host * Fn.Vars) :
  Options.imageChange options = None ->
  image_reads (trace (fst (Fn.exec options o s))) = image_reads (trace (fst s)).
Proof.
  intro H. destruct o as [|id|text image]; simpl.
  - unfold Fn.destroy, bind, get. destruct (Fn.timer (snd s)); reflexivity.
  - destruct (active id (fst s)); auto.
    destruct (Fn_tick_frame options s) as (_ & _ & _ & _ & _ & tr & Htr & Hir & _).
    cbv zeta in *. rewrite Htr, image_reads_app, (Hir H).
    now rewrite app_nil_r.
  - reflexivity.
Qed.

Lemma Fn_run_no_image_read (options : Options.t) (ops : list Fn.op) (s : Host * Fn.Vars) :
  Options.imageChange options = None ->
  image_reads (trace (fst (Fn.run options ops s))) = image_reads (trace (fst s)).
Proof.
  intro H. revert s. induction ops as [|o ops IH]; intro s; [reflexivity|].
  unfold Fn.run in *. simpl.
  now rewrite IH, Fn_exec_no_image_read.
Qed.

(** C7: an observer configured with [textChange] only never calls
    [readImage()]: neither construction nor any later sequence of method
    calls, ticks and clipboard writes adds a [ReadImage] event to the trace,
    in either variant. *)
Theorem C7_text_only_never_reads_image
  (d : prop jsnum) (f : TextCallback) (h : Host)
  (fn_ops : list Fn.op) (cls_ops : list Cls.op) :
  let options := Options.mk d (Some f) None in
  image_reads (trace (fst (Fn.create options h))) = image_reads (trace h)
  /\ image_reads (trace (fst (Fn.run (Fn.merged options) fn_ops (Fn.create options h))))
     = image_reads (trace h)
  /\ image_reads (trace (fst (Cls.create options h))) = image_reads (trace h)
  /\ image_reads (trace (fst (Cls.run cls_ops (Cls.create options h))))
     = image_reads (trace h).
Proof.
  cbv zeta.
  destruct (Fn_create_seeds (Options.mk d (Some f) None) h) as (Hf & _).
  destruct (Cls_create_seeds (Options.mk d (Some f) None) h)
    as (Hc & _ & _ & _ & _ & _ & Hic).
  cbv zeta in *. cbn [Options.textChange Options.imageChange] in Hf, Hc, Hic.
  assert (Ef : image_reads (trace (fst (Fn.create (Options.mk d (Some f) None) h)))
               = image_reads (trace h)).
  { rewrite Hf, image_reads_app, image_reads_seed_text. apply app_nil_r. }
  assert (Ec : image_reads (trace (fst (Cls.create (Options.mk d (Some f) None) h)))
               = image_reads (trace h)).
  { rewrite Hc, image_reads_app, image_reads_seed_text. apply app_nil_r. }
  repeat split; auto.
  - rewrite Fn_run_no_image_read; auto.
  - rewrite Cls_run_no_image_read; auto.
Qed.

(** ** An observer without callbacks *)

Lemma Cls_exec_dormant (o : Cls.op) (s : Host * Cls.ClipboardObserver) :
  Cls.textChange (snd s) = None ->
  Cls.imageChange (snd s) = None ->
  Cls.textChange (snd (Cls.exec o s)) = None
  /\ Cls.imageChange (snd (Cls.exec o s)) = None
  /\ trace (fst (Cls.exec o s)) = trace (fst s).
Proof.
  intros Ht Hi. destruct o as [| | |id|text image]; simpl.
  - destruct (Cls_start_seeds s) as (Htr & _ & _ & _ & _ & Htc & Hic).
    cbv zeta in *. rewrite Htc, Hic, Htr, Ht, Hi. repeat split; auto.
    apply app_nil_r.
  - repeat split; assumption.
  - unfold Cls.clearTimer, bind, get. destruct (Cls.timer (snd s)); simpl; auto.
  - destruct (active id (fst s)); auto.
    destruct (Cls_tick_frame s)
      as (_ & _ & _ & _ & _ & _ & Htc & Hic & tr & Htr & _ & Hnil).
    cbv zeta in *. rewrite Htc, Hic, Htr, (Hnil Ht Hi).
    repeat split; auto. apply app_nil_r.
  - auto.
Qed.

Lemma Cls_run_dormant (ops : list Cls.op) (s : Host * Cls.ClipboardObserver) :
  Cls.textChange (snd s) = None ->
  Cls.imageChange (snd s) = None ->
  trace (fst (Cls.run ops s)) = trace (fst s).
Proof.
  revert s. induction ops as [|o ops IH]; intros s Ht Hi; [reflexivity|].
  unfold Cls.run in *. simpl.
  destruct (Cls_exec_dormant o s Ht Hi) as (H1 & H2 & H3).
  now rewrite IH, H3.
Qed.

Lemma Fn_exec_dormant (options : Options.t) (o : Fn.op) (s : Host * Fn.Vars) :
  Options.textChange options = None ->
  Options.imageChange options = None ->
  Fn.timer (snd s) = None ->
  intervals (fst (Fn.exec options o s)) = intervals (fst s)
  /\ next_id (fst (Fn.exec options o s)) = next_id (fst s)
  /\ trace (fst (Fn.exec options o s)) = trace (fst s)
  /\ snd (Fn.exec options o s) = snd s.
Proof.
  intros Ht Hi Htm. destruct o as [|id|text image]; simpl.
  - rewrite Fn_destroy_idle by assumption. auto.
  - destruct (active id (fst s)); auto.
    destruct (Fn_tick_frame options s) as (_ & _ & Hiv & Hn & _ & tr & Htr & _ & Hnil).
    cbv zeta in *. destruct (Hnil Ht Hi) as [-> Hs].
    rewrite Hiv, Hn, Htr, Hs, app_nil_r. auto.
  - auto.
Qed.

Lemma Fn_run_dormant (options : Options.t) (ops : list Fn.op) (s : Host * Fn.Vars) :
  Options.textChange options = None ->
  Options.imageChange options = None ->
  Fn.timer (snd s) = None ->
  intervals (fst (Fn.run options ops s)) = intervals (fst s)
  /\ next_id (fst (Fn.run options ops s)) = next_id (fst s)
  /\ trace (fst (Fn.run options ops s)) = trace (fst s)
  /\ snd (Fn.run options ops s) = snd s.
Proof.
  intros Ht Hi. revert s. induction ops as [|o ops IH]; intros s Htm; [auto|].
  unfold Fn.run in *. simpl.
  destruct (Fn_exec_dormant options o s Ht Hi Htm) as (H1 & H2 & H3 & H4).
  destruct (IH (Fn.exec options o s)) as (K1 & K2 & K3 & K4); [congruence|].
  rewrite K1, K2, K3, K4. auto.
Qed.

(** C6 fails as stated: on a class-style instance built without callbacks,
    [start()] is not a no-op, it schedules a timer. *)
Lemma C6_dormant_start_schedules_timer :
  let s := Cls.create (Options.mk Absent None None) (fresh "A" img_one) in
  intervals (fst s) = []
  /\ intervals (fst (snd (Cls.start s))) = [(0, None)]
  /\ snd (Cls.start s) <> s.
Proof.
  cbv zeta. split; [reflexivity|]. split; [reflexivity|].
  intro H. apply (f_equal (fun s => intervals (fst s))) in H. discriminate H.
Qed.

(** C6, amended: without callbacks, construction schedules no timer and
    reads nothing, in both variants, and whatever method calls, ticks and
    clipboard writes follow, the clipboard is never read and no callback is
    invoked.  In the function-style variant no timer is ever scheduled and
    [destroy()] changes nothing.  In the class-style variant [start()] does
    schedule one timer. *)
Theorem C6_no_callbacks_no_reads
  (d : prop jsnum) (h : Host) (fn_ops : list Fn.op) (cls_ops : list Cls.op) :
  let options := Options.mk d None None in
  Fn.create options h = (h, Fn.init)
  /\ (let s := Fn.run (Fn.merged options) fn_ops (Fn.create options h) in
      intervals (fst s) = intervals h
      /\ next_id (fst s) = next_id h
      /\ trace (fst s) = trace h
      /\ snd s = Fn.init)
  /\ Fn.destroy (Fn.create options h) = (Ok tt, Fn.create options h)
  /\ Cls.create options h =
     (h, Cls.mkObserver None VUndefined None (destructure d) None None)
  /\ trace (fst (Cls.run cls_ops (Cls.create options h))) = trace h
  /\ intervals (fst (snd (Cls.start (Cls.create options h)))) =
     intervals h ++ [(next_id h, destructure d)].
Proof.
  cbv zeta.
  assert (Ef : Fn.create (Options.mk d None None) h = (h, Fn.init)) by reflexivity.
  assert (Ec : Cls.create (Options.mk d None None) h =
               (h, Cls.mkObserver None VUndefined None (destructure d) None None))
    by reflexivity.
  rewrite Ef, Ec. split; [reflexivity|]. split; [|split; [reflexivity|]].
  - destruct (Fn_run_dormant (Fn.merged (Options.mk d None None)) fn_ops (h, Fn.init))
      as (H1 & H2 & H3 & H4); auto.
  - split; [reflexivity|]. split.
    + now rewrite Cls_run_dormant.
    + now rewrite Cls_start_intervals.
Qed.

(** ** A callback that raises *)

Lemma log_log_trace (e1 e2 : event) (h : Host) :
  trace (log e2 (log e1 h)) = trace h ++ [e1; e2].
Proof. simpl. now rewrite <- app_assoc. Qed.

(** Text statement, class style: when the predicate is truthy the callback is
    called with the text just read and the last-known text, whatever comes
    after. *)
Lemma Cls_text_delivered (h : Host) (o : Cls.ClipboardObserver) (cb : TextCallback) :
  Cls.textChange o = Some cb ->
  truthy (Cls.isDiffText (Cls.beforeText o) (VString (clip_text h))) = true ->
  exists rest,
    trace (fst (snd (Cls.tick (h, o)))) =
    trace h ++ [ReadText; TextChange (clip_text h) (Cls.beforeText o)] ++ rest.
Proof.
  intros Hcb Hd. rewrite Cls_tick_eq, Cls_tick_text_eq, Hcb. cbv zeta. rewrite Hd.
  destruct (cb _ _ _).
  - match goal with |- context [Cls.tick_image (?h1, ?o1)] =>
      destruct (Cls_tick_image_frame h1 o1)
        as (_ & _ & _ & _ & _ & _ & _ & _ & _ & tr & Htr & _)
    end.
    cbv zeta in Htr. exists tr. rewrite Htr, log_log_trace.
    now rewrite <- app_assoc.
  - exists []. simpl. now rewrite <- app_assoc.
Qed.

Lemma Cls_text_raises (h : Host) (o : Cls.ClipboardObserver) (cb : TextCallback) :
  Cls.textChange o = Some cb ->
  truthy (Cls.isDiffText (Cls.beforeText o) (VString (clip_text h))) = true ->
  cb (trace h ++ [ReadText]) (clip_text h) (Cls.beforeText o) = Raises ->
  Cls.tick (h, o) =
  (Throw CallbackError,
   (log (TextChange (clip_text h) (Cls.beforeText o)) (log ReadText h), o)).
Proof.
  intros Hcb Hd Hr. rewrite Cls_tick_eq, Cls_tick_text_eq, Hcb. cbv zeta.
  now rewrite Hd, Hr.
Qed.

Lemma Cls_text_updated_only_on_return (h : Host) (o : Cls.ClipboardObserver) :
  Cls.beforeText (snd (snd (Cls.tick (h, o)))) <> Cls.beforeText o ->
  exists cb,
    Cls.textChange o = Some cb
    /\ truthy (Cls.isDiffText (Cls.beforeText o) (VString (clip_text h))) = true
    /\ cb (trace h ++ [ReadText]) (clip_text h) (Cls.beforeText o) = Returns
    /\ Cls.beforeText (snd (snd (Cls.tick (h, o)))) = VString (clip_text h).
Proof.
  rewrite Cls_tick_eq, Cls_tick_text_eq.
  destruct (Cls.textChange o) as [cb|]; cbv zeta.
  - destruct (truthy _) eqn:Hd.
    + destruct (cb _ _ _) eqn:Hr.
      * match goal with |- context [Cls.tick_image (?h1, ?o1)] =>
          destruct (Cls_tick_image_frame h1 o1)
            as (_ & _ & _ & _ & _ & _ & _ & _ & Hbt & _)
        end.
        cbv zeta in Hbt. rewrite Hbt. simpl. intros _. exists cb. auto.
      * simpl. congruence.
    + destruct (Cls_tick_image_frame (log ReadText h) o)
        as (_ & _ & _ & _ & _ & _ & _ & _ & Hbt & _).
      cbv zeta in Hbt. rewrite Hbt. congruence.
  - destruct (Cls_tick_image_frame h o)
      as (_ & _ & _ & _ & _ & _ & _ & _ & Hbt & _).
    cbv zeta in Hbt. rewrite Hbt. congruence.
Qed.

(** Once the text statement has returned, it returns again on an unchanged
    clipboard text without calling anything. *)
Lemma Cls_text_settled (h h1 h' : Host) (o o1 : Cls.ClipboardObserver) :
  Cls.tick_text (h, o) = (Ok tt, (h1, o1)) ->
  clip_text h' = clip_text h ->
  exists mid,
    Cls.tick_text (h', o1) =
    (Ok tt, (mkHost (clip_text h') (clip_image h') (intervals h') (next_id h')
                    (trace h' ++ mid), o1))
    /\ calls mid = [].
Proof.
  intros H Hc. rewrite Cls_tick_text_eq in H. rewrite Cls_tick_text_eq.
  destruct (Cls.textChange o) as [cb|] eqn:Hcb; cbv zeta in *.
  - destruct (truthy _) eqn:Hd.
    + destruct (cb _ _ _) eqn:Hr; [|discriminate].
      injection H as <- <-. simpl. rewrite Hcb, Hc, Cls_isDiffText_same.
      exists [ReadText]. unfold log. rewrite Hc. auto.
    + injection H as <- <-. rewrite Hcb, Hc, Hd. exists [ReadText].
      unfold log. rewrite Hc. auto.
  - injection H as <- <-. rewrite Hcb. exists []. split; [|reflexivity].
    rewrite app_nil_r. now destruct h'.
Qed.

Lemma Cls_image_raises (h h1 : Host) (o o1 : Cls.ClipboardObserver)
  (cb : ImageCallback) (d : jsval) :
  Cls.tick_text (h, o) = (Ok tt, (h1, o1)) ->
  Cls.imageChange o = Some cb ->
  Cls.isDiffImage (Cls.beforeImage o) (Some (clip_image h)) = Ok d ->
  truthy d = true ->
  cb (trace h1 ++ [ReadImage]) (clip_image h) (Cls.beforeImage o) = Raises ->
  Cls.tick (h, o) =
  (Throw CallbackError,
   (log (ImageChange (clip_image h) (Cls.beforeImage o)) (log ReadImage h1), o1))
  /\ Cls.beforeImage o1 = Cls.beforeImage o.
Proof.
  intros Ht Hcb Hdiff Hd Hr.
  destruct (Cls_tick_text_frame h o) as (_ & Hci & _ & _ & _ & _ & _ & Hic & Hbi & _).
  cbv zeta in *. rewrite Ht in *. simpl in Hci, Hic, Hbi.
  rewrite Cls_tick_eq, Ht, Cls_tick_image_eq, Hic, Hcb. cbv zeta.
  rewrite Hci, Hbi, Hdiff, Hd, Hr. auto.
Qed.

Lemma Cls_image_redelivered (h h1 h2 : Host) (o o1 : Cls.ClipboardObserver)
  (cb : ImageCallback) (d : jsval) :
  Cls.tick_text (h, o) = (Ok tt, (h1, o1)) ->
  Cls.imageChange o = Some cb ->
  Cls.isDiffImage (Cls.beforeImage o) (Some (clip_image h)) = Ok d ->
  truthy d = true ->
  clip_text h2 = clip_text h ->
  clip_image h2 = clip_image h ->
  exists mid,
    trace (fst (snd (Cls.tick (h2, o1)))) =
    trace h2 ++ mid ++ [ReadImage; ImageChange (clip_image h) (Cls.beforeImage o)]
    /\ calls mid = [].
Proof.
  intros Ht Hcb Hdiff Hd Hc2 Hi2.
  destruct (Cls_tick_text_frame h o) as (_ & _ & _ & _ & _ & _ & _ & Hic & Hbi & _).
  cbv zeta in *. rewrite Ht in *. simpl in Hic, Hbi.
  destruct (Cls_text_settled h h1 h2 o o1 Ht Hc2) as (mid & Hs & Hm).
  exists mid. split; [|assumption].
  rewrite Cls_tick_eq, Hs, Cls_tick_image_eq, Hic, Hcb. cbv zeta. simpl clip_image.
  rewrite Hi2, Hbi, Hdiff, Hd.
  destruct (cb _ _ _); simpl; now rewrite <- !app_assoc.
Qed.

Lemma Cls_image_updated_only_on_return (h : Host) (o : Cls.ClipboardObserver) :
  Cls.beforeImage (snd (snd (Cls.tick (h, o)))) <> Cls.beforeImage o ->
  fst (Cls.tick (h, o)) = Ok tt
  /\ Cls.beforeImage (snd (snd (Cls.tick (h, o)))) = Some (clip_image h)
  /\ exists cb tr,
       Cls.imageChange o = Some cb
       /\ cb tr (clip_image h) (Cls.beforeImage o) = Returns.
Proof.
  rewrite Cls_tick_eq.
  destruct (Cls_tick_text_frame h o) as (_ & Hci & _ & _ & _ & _ & _ & Hic & Hbi & _).
  cbv zeta in *.
  destruct (Cls.tick_text (h, o)) as [[[]|e] [h1 o1]]; simpl in Hci, Hic, Hbi.
  - rewrite Cls_tick_image_eq, Hic, Hbi, Hci.
    destruct (Cls.imageChange o) as [cb|]; cbv zeta; [|simpl; congruence].
    destruct (Cls.isDiffImage _ _) as [d|e]; [|simpl; congruence].
    destruct (truthy d); [|simpl; congruence].
    destruct (cb _ _ _) eqn:Hr; [|simpl; congruence].
    simpl. intros _. repeat split. eauto.
  - simpl. congruence.
Qed.

(** The same facts for the function-style variant. *)
Lemma Fn_text_delivered (options : Options.t) (h : Host) (v : Fn.Vars)
  (cb : TextCallback) :
  Options.textChange options = Some cb ->
  truthy (Fn.isDiffText (Fn.beforeText v) (VString (clip_text h))) = true ->
  exists rest,
    trace (fst (snd (Fn.tick options (h, v)))) =
    trace h ++ [ReadText; TextChange (clip_text h) (Fn.beforeText v)] ++ rest.
Proof.
  intros Hcb Hd. rewrite Fn_tick_eq, Fn_tick_text_eq, Hcb. cbv zeta. rewrite Hd.
  destruct (cb _ _ _).
  - match goal with |- context [Fn.tick_image options (?h1, ?v1)] =>
      destruct (Fn_tick_image_frame options h1 v1)
        as (_ & _ & _ & _ & _ & _ & tr & Htr & _)
    end.
    cbv zeta in Htr. exists tr. rewrite Htr, log_log_trace.
    now rewrite <- app_assoc.
  - exists []. simpl. now rewrite <- app_assoc.
Qed.

Lemma Fn_text_raises (options : Options.t) (h : Host) (v : Fn.Vars)
  (cb : TextCallback) :
  Options.textChange options = Some cb ->
  truthy (Fn.isDiffText (Fn.beforeText v) (VString (clip_text h))) = true ->
  cb (trace h ++ [ReadText]) (clip_text h) (Fn.beforeText v) = Raises ->
  Fn.tick options (h, v) =
  (Throw CallbackError,
   (log (TextChange (clip_text h) (Fn.beforeText v)) (log ReadText h), v)).
Proof.
  intros Hcb Hd Hr. rewrite Fn_tick_eq, Fn_tick_text_eq, Hcb. cbv zeta.
  now rewrite Hd, Hr.
Qed.

Lemma Fn_text_updated_only_on_return (options : Options.t) (h : Host) (v : Fn.Vars) :
  Fn.beforeText (snd (snd (Fn.tick options (h, v)))) <> Fn.beforeText v ->
  exists cb,
    Options.textChange options = Some cb
    /\ truthy (Fn.isDiffText (Fn.beforeText v) (VString (clip_text h))) = true
    /\ cb (trace h ++ [ReadText]) (clip_text h) (Fn.beforeText v) = Returns
    /\ Fn.beforeText (snd (snd (Fn.tick options (h, v)))) = VString (clip_text h).
Proof.
  rewrite Fn_tick_eq, Fn_tick_text_eq.
  destruct (Options.textChange options) as [cb|]; cbv zeta.
  - destruct (truthy _) eqn:Hd.
    + destruct (cb _ _ _) eqn:Hr.
      * match goal with |- context [Fn.tick_image options (?h1, ?v1)] =>
          destruct (Fn_tick_image_frame options h1 v1)
            as (_ & _ & _ & _ & _ & Hbt & _)
        end.
        cbv zeta in Hbt. rewrite Hbt. simpl. intros _. exists cb. auto.
      * simpl. congruence.
    + destruct (Fn_tick_image_frame options (log ReadText h) v)
        as (_ & _ & _ & _ & _ & Hbt & _).
      cbv zeta in Hbt. rewrite Hbt. congruence.
  - destruct (Fn_tick_image_frame options h v) as (_ & _ & _ & _ & _ & Hbt & _).
    cbv zeta in Hbt. rewrite Hbt. congruence.
Qed.

Lemma Fn_text_settled (options : Options.t) (h h1 h' : Host) (v v1 : Fn.Vars) :
  Fn.tick_text options (h, v) = (Ok tt, (h1, v1)) ->
  clip_text h' = clip_text h ->
  exists mid,
    Fn.tick_text options (h', v1) =
    (Ok tt, (mkHost (clip_text h') (clip_image h') (intervals h') (next_id h')
                    (trace h' ++ mid), v1))
    /\ calls mid = [].
Proof.
  intros H Hc. rewrite Fn_tick_text_eq in H. rewrite Fn_tick_text_eq.
  destruct (Options.textChange options) as [cb|] eqn:Hcb; cbv zeta in *.
  - destruct (truthy _) eqn:Hd.
    + destruct (cb _ _ _) eqn:Hr; [|discriminate].
      injection H as <- <-. simpl. rewrite Hc, Fn_isDiffText_same.
      exists [ReadText]. unfold log. rewrite Hc. auto.
    + injection H as <- <-. rewrite Hc, Hd. exists [ReadText].
      unfold log. rewrite Hc. auto.
  - injection H as <- <-. exists []. split; [|reflexivity].
    rewrite app_nil_r. now destruct h'.
Qed.

Lemma Fn_image_raises (options : Options.t) (h h1 : Host) (v v1 : Fn.Vars)
  (cb : ImageCallback) (d : jsval) :
  Fn.tick_text options (h, v) = (Ok tt, (h1, v1)) ->
  Options.imageChange options = Some cb ->
  Fn.isDiffImage (Fn.beforeImage v) (Some (clip_image h)) = Ok d ->
  truthy d = true ->
  cb (trace h1 ++ [ReadImage]) (clip_image h) (Fn.beforeImage v) = Raises ->
  Fn.tick options (h, v) =
  (Throw CallbackError,
   (log (ImageChange (clip_image h) (Fn.beforeImage v)) (log ReadImage h1), v1))
  /\ Fn.beforeImage v1 = Fn.beforeImage v.
Proof.
  intros Ht Hcb Hdiff Hd Hr.
  destruct (Fn_tick_text_frame options h v) as (_ & Hci & _ & _ & _ & Hbi & _).
  cbv zeta in *. rewrite Ht in *. simpl in Hci, Hbi.
  rewrite Fn_tick_eq, Ht, Fn_tick_image_eq, Hcb. cbv zeta.
  rewrite Hci, Hbi, Hdiff, Hd, Hr. auto.
Qed.

Lemma Fn_image_redelivered (options : Options.t) (h h1 h2 : Host) (v v1 : Fn.Vars)
  (cb : ImageCallback) (d : jsval) :
  Fn.tick_text options (h, v) = (Ok tt, (h1, v1)) ->
  Options.imageChange options = Some cb ->
  Fn.isDiffImage (Fn.beforeImage v) (Some (clip_image h)) = Ok d ->
  truthy d = true ->
  clip_text h2 = clip_text h ->
  clip_image h2 = clip_image h ->
  exists mid,
    trace (fst (snd (Fn.tick options (h2, v1)))) =
    trace h2 ++ mid ++ [ReadImage; ImageChange (clip_image h) (Fn.beforeImage v)]
    /\ calls mid = [].
Proof.
  intros Ht Hcb Hdiff Hd Hc2 Hi2.
  destruct (Fn_tick_text_frame options h v) as (_ & _ & _ & _ & _ & Hbi & _).
  cbv zeta in *. rewrite Ht in *. simpl in Hbi.
  destruct (Fn_text_settled options h h1 h2 v v1 Ht Hc2) as (mid & Hs & Hm).
  exists mid. split; [|assumption].
  rewrite Fn_tick_eq, Hs, Fn_tick_image_eq, Hcb. cbv zeta. simpl clip_image.
  rewrite Hi2, Hbi, Hdiff, Hd.
  destruct (cb _ _ _); simpl; now rewrite <- !app_assoc.
Qed.

Lemma Fn_image_updated_only_on_return (options : Options.t) (h : Host) (v : Fn.Vars) :
  Fn.beforeImage (snd (snd (Fn.tick options (h, v)))) <> Fn.beforeImage v ->
  fst (Fn.tick options (h, v)) = Ok tt
  /\ Fn.beforeImage (snd (snd (Fn.tick options (h, v)))) = Some (clip_image h)
  /\ exists cb tr,
       Options.imageChange options = Some cb
       /\ cb tr (clip_image h) (Fn.beforeImage v) = Returns.
Proof.
  rewrite Fn_tick_eq.
  destruct (Fn_tick_text_frame options h v) as (_ & Hci & _ & _ & _ & Hbi & _).
  cbv zeta in *.
  destruct (Fn.tick_text options (h, v)) as [[[]|e] [h1 v1]]; simpl in Hci, Hbi.
  - rewrite Fn_tick_image_eq, Hbi, Hci.
    destruct (Options.imageChange options) as [cb|]; cbv zeta; [|simpl; congruence].
    destruct (Fn.isDiffImage _ _) as [d|e]; [|simpl; congruence].
    destruct (truthy d); [|simpl; congruence].
    destruct (cb _ _ _) eqn:Hr; [|simpl; congruence].
    simpl. intros _. repeat split. eauto.
  - simpl. congruence.
Qed.

(** C10: in both variants, when a channel's predicate reports a change and
    the channel's callback raises, the tick ends with that exception and the
    channel's last-known value is left as it was (the assignment comes after
    the call); on the next tick over the same clipboard content the callback
    is called again with the same two arguments.  A last-known value that a
    tick did change was changed after its callback returned normally. *)
Theorem C10_raising_callback_keeps_last_known
  (options : Options.t) (h h1 : Host)
  (o o1 : Cls.ClipboardObserver) (v v1 : Fn.Vars) :
  (forall cb : TextCallback,
      Cls.textChange o = Some cb ->
      truthy (Cls.isDiffText (Cls.beforeText o) (VString (clip_text h))) = true ->
      cb (trace h ++ [ReadText]) (clip_text h) (Cls.beforeText o) = Raises ->
      let s' := snd (Cls.tick (h, o)) in
      fst (Cls.tick (h, o)) = Throw CallbackError
      /\ snd s' = o
      /\ exists rest,
           trace (fst (snd (Cls.tick s'))) =
           trace (fst s') ++
           [ReadText; TextChange (clip_text h) (Cls.beforeText o)] ++ rest)
  /\
  (forall (cb : ImageCallback) (d : jsval),
      Cls.tick_text (h, o) = (Ok tt, (h1, o1)) ->
      Cls.imageChange o = Some cb ->
      Cls.isDiffImage (Cls.beforeImage o) (Some (clip_image h)) = Ok d ->
      truthy d = true ->
      cb (trace h1 ++ [ReadImage]) (clip_image h) (Cls.beforeImage o) = Raises ->
      let s' := snd (Cls.tick (h, o)) in
      fst (Cls.tick (h, o)) = Throw CallbackError
      /\ Cls.beforeImage (snd s') = Cls.beforeImage o
      /\ exists mid,
           trace (fst (snd (Cls.tick s'))) =
           trace (fst s') ++ mid ++
           [ReadImage; ImageChange (clip_image h) (Cls.beforeImage o)]
           /\ calls mid = [])
  /\
  (Cls.beforeText (snd (snd (Cls.tick (h, o)))) <> Cls.beforeText o ->
   exists cb,
     Cls.textChange o = Some cb
     /\ cb (trace h ++ [ReadText]) (clip_text h) (Cls.beforeText o) = Returns)
  /\
  (Cls.beforeImage (snd (snd (Cls.tick (h, o)))) <> Cls.beforeImage o ->
   fst (Cls.tick (h, o)) = Ok tt
   /\ exists cb tr,
        Cls.imageChange o = Some cb
        /\ cb tr (clip_image h) (Cls.beforeImage o) = Returns)
  /\
  (forall cb : TextCallback,
      Options.textChange options = Some cb ->
      truthy (Fn.isDiffText (Fn.beforeText v) (VString (clip_text h))) = true ->
      cb (trace h ++ [ReadText]) (clip_text h) (Fn.beforeText v) = Raises ->
      let s' := snd (Fn.tick options (h, v)) in
      fst (Fn.tick options (h, v)) = Throw CallbackError
      /\ snd s' = v
      /\ exists rest,
           trace (fst (snd (Fn.tick options s'))) =
           trace (fst s') ++
           [ReadText; TextChange (clip_text h) (Fn.beforeText v)] ++ rest)
  /\
  (forall (cb : ImageCallback) (d : jsval),
      Fn.tick_text options (h, v) = (Ok tt, (h1, v1)) ->
      Options.imageChange options = Some cb ->
      Fn.isDiffImage (Fn.beforeImage v) (Some (clip_image h)) = Ok d ->
      truthy d = true ->
      cb (trace h1 ++ [ReadImage]) (clip_image h) (Fn.beforeImage v) = Raises ->
      let s' := snd (Fn.tick options (h, v)) in
      fst (Fn.tick options (h, v)) = Throw CallbackError
      /\ Fn.beforeImage (snd s') = Fn.beforeImage v
      /\ exists mid,
           trace (fst (snd (Fn.tick options s'))) =
           trace (fst s') ++ mid ++
           [ReadImage; ImageChange (clip_image h) (Fn.beforeImage v)]
           /\ calls mid = [])
  /\
  (Fn.beforeText (snd (snd (Fn.tick options (h, v)))) <> Fn.beforeText v ->
   exists cb,
     Options.textChange options = Some cb
     /\ cb (trace h ++ [ReadText]) (clip_text h) (Fn.beforeText v) = Returns)
  /\
  (Fn.beforeImage (snd (snd (Fn.tick options (h, v)))) <> Fn.beforeImage v ->
   fst (Fn.tick options (h, v)) = Ok tt
   /\ exists cb tr,
        Options.imageChange options = Some cb
        /\ cb tr (clip_image h) (Fn.beforeImage v) = Returns).
Proof.
  repeat apply conj.
  - intros cb Hcb Hd Hr. cbv zeta.
    rewrite (Cls_text_raises h o cb Hcb Hd Hr). cbn [fst snd].
    repeat split.
    exact (Cls_text_delivered
             (log (TextChange (clip_text h) (Cls.beforeText o)) (log ReadText h))
             o cb Hcb Hd).
  - intros cb d Ht Hcb Hdiff Hd Hr. cbv zeta.
    destruct (Cls_image_raises h h1 o o1 cb d Ht Hcb Hdiff Hd Hr) as [E Hbi].
    rewrite E. cbn [fst snd]. repeat split; [assumption|].
    destruct (Cls_tick_text_frame h o) as (Hc & Hi & _).
    cbv zeta in Hc, Hi. rewrite Ht in Hc, Hi. cbn [fst snd] in Hc, Hi.
    exact (Cls_image_redelivered h h1
             (log (ImageChange (clip_image h) (Cls.beforeImage o)) (log ReadImage h1))
             o o1 cb d Ht Hcb Hdiff Hd Hc Hi).
  - intro H. destruct (Cls_text_updated_only_on_return h o H) as (cb & H1 & _ & H2 & _).
    eauto.
  - intro H. destruct (Cls_image_updated_only_on_return h o H) as (H1 & _ & H2).
    auto.
  - intros cb Hcb Hd Hr. cbv zeta.
    rewrite (Fn_text_raises options h v cb Hcb Hd Hr). cbn [fst snd].
    repeat split.
    exact (Fn_text_delivered options
             (log (TextChange (clip_text h) (Fn.beforeText v)) (log ReadText h))
             v cb Hcb Hd).
  - intros cb d Ht Hcb Hdiff Hd Hr. cbv zeta.
    destruct (Fn_image_raises options h h1 v v1 cb d Ht Hcb Hdiff Hd Hr) as [E Hbi].
    rewrite E. cbn [fst snd]. repeat split; [assumption|].
    destruct (Fn_tick_text_frame options h v) as (Hc & Hi & _).
    cbv zeta in Hc, Hi. rewrite Ht in Hc, Hi. cbn [fst snd] in Hc, Hi.
    exact (Fn_image_redelivered options h h1
             (log (ImageChange (clip_image h) (Fn.beforeImage v)) (log ReadImage h1))
             v v1 cb d Ht Hcb Hdiff Hd Hc Hi).
  - intro H.
    destruct (Fn_text_updated_only_on_return options h v H) as (cb & H1 & _ & H2 & _).
    eauto.
  - intro H. destruct (Fn_image_updated_only_on_return options h v H) as (H1 & _ & H2).
    auto.
Qed.

(** The hypotheses of C10 hold for a callback that raises when the clipboard
    went from ["A"] to ["B"], and from [img_one] to [img_two]. *)
Lemma C10_raising_callback_witness :
  (let s' := snd (Cls.tick (ex_host, ex_text_observer)) in
   fst (Cls.tick (ex_host, ex_text_observer)) = Throw CallbackError
   /\ snd s' = ex_text_observer
   /\ exists rest,
        trace (fst (snd (Cls.tick s'))) =
        trace (fst s') ++ [ReadText; TextChange "B" (VString "A")] ++ rest)
  /\
  (let s' := snd (Cls.tick (ex_host, ex_image_observer)) in
   fst (Cls.tick (ex_host, ex_image_observer)) = Throw CallbackError
   /\ Cls.beforeImage (snd s') = Some img_one
   /\ exists mid,
        trace (fst (snd (Cls.tick s'))) =
        trace (fst s') ++ mid ++ [ReadImage; ImageChange img_two (Some img_one)]
        /\ calls mid = [])
  /\
  (let s' := snd (Fn.tick ex_text_options (ex_host, ex_vars)) in
   fst (Fn.tick ex_text_options (ex_host, ex_vars)) = Throw CallbackError
   /\ snd s' = ex_vars
   /\ exists rest,
        trace (fst (snd (Fn.tick ex_text_options s'))) =
        trace (fst s') ++ [ReadText; TextChange "B" (VString "A")] ++ rest)
  /\
  (let s' := snd (Fn.tick ex_image_options (ex_host, ex_vars)) in
   fst (Fn.tick ex_image_options (ex_host, ex_vars)) = Throw CallbackError
   /\ Fn.beforeImage (snd s') = Some img_one
   /\ exists mid,
        trace (fst (snd (Fn.tick ex_image_options s'))) =
        trace (fst s') ++ mid ++ [ReadImage; ImageChange img_two (Some img_one)]
        /\ calls mid = []).
Proof.
  split; [|split; [|split]].
  - exact (proj1 (C10_raising_callback_keeps_last_known
                    ex_text_options ex_host ex_host
                    ex_text_observer ex_text_observer ex_vars ex_vars)
                 text_raises eq_refl eq_refl eq_refl).
  - exact (proj1 (proj2 (C10_raising_callback_keeps_last_known
                    ex_image_options ex_host ex_host
                    ex_image_observer ex_image_observer ex_vars ex_vars))
                 image_raises (VBool true) eq_refl eq_refl eq_refl eq_refl eq_refl).
  - exact (proj1 (proj2 (proj2 (proj2 (proj2
             (C10_raising_callback_keeps_last_known
                    ex_text_options ex_host ex_host
                    ex_text_observer ex_text_observer ex_vars ex_vars)))))
                 text_raises eq_refl eq_refl eq_refl).
  - exact (proj1 (proj2 (proj2 (proj2 (proj2 (proj2
             (C10_raising_callback_keeps_last_known
                    ex_image_options ex_host ex_host
                    ex_image_observer ex_image_observer ex_vars ex_vars))))))
                 image_raises (VBool true) eq_refl eq_refl eq_refl eq_refl eq_refl).
Defined.

(** ** The scenario of the specification

    An observer with [textChange] is created while the clipboard holds
    ["A"]; a tick, then ["B"] is copied, then two ticks.  The callback is
    called once, with [("B", "A")], in both variants. *)
Example scenario_text_class :
  let s := Cls.run [Cls.Tick 0; Cls.Copy "B" img_empty; Cls.Tick 0; Cls.Tick 0]
             (Cls.create (Options.mk (Present (Some 100%Z)) (Some text_ok) None)
                         (fresh "A" img_empty)) in
  trace (fst s) = [ReadText; ReadText; ReadText; TextChange "B" (VString "A"); ReadText]
  /\ Cls.beforeText (snd s) = VString "B"
  /\ intervals (fst s) = [(0, Some 100%Z)].
Proof. cbv zeta. repeat split; reflexivity. Qed.

Example scenario_text_function :
  let options := Options.mk (Present (Some 100%Z)) (Some text_ok) None in
  let s := Fn.run (Fn.merged options)
             [Fn.Tick 0; Fn.Copy "B" img_empty; Fn.Tick 0; Fn.Tick 0]
             (Fn.create options (fresh "A" img_empty)) in
  trace (fst s) = [ReadText; ReadText; ReadText; TextChange "B" (VString "A"); ReadText]
  /\ Fn.beforeText (snd s) = VString "B"
  /\ intervals (fst s) = [(0, Some 100%Z)].
Proof. cbv zeta. repeat split; reflexivity. Qed.

(** An image callback on a clipboard whose image stays empty is never
    called. *)
Example scenario_empty_image :
  let s := Cls.run [Cls.Tick 0; Cls.Tick 0; Cls.Tick 0; Cls.Tick 0; Cls.Tick 0]
             (Cls.create (Options.mk Absent None (Some image_ok))
                         (fresh "" img_empty)) in
  calls (trace (fst s)) = [].
Proof. reflexivity. Qed.

(** The function-style observer created on a clipboard without text never
    reports a text, the class-style one does. *)
Example scenario_first_text :
  calls (trace (fst (Fn.run (Fn.merged (Options.mk Absent (Some text_ok) None))
                            [Fn.Copy "A" img_empty; Fn.Tick 0]
                            (Fn.create (Options.mk Absent (Some text_ok) None)
                                       (fresh "" img_empty))))) = []
  /\ calls (trace (fst (Cls.run [Cls.Copy "A" img_empty; Cls.Tick 0]
                                (Cls.create (Options.mk Absent (Some text_ok) None)
                                            (fresh "" img_empty)))))
     = [TextChange "A" (VString "")].
Proof. split; reflexivity. Qed.

(** ** Further properties of the predicates *)

Lemma strict_eq_false_neq (a b : jsval) : strict_eq a b = false -> a <> b.
Proof. intros H E. subst. now rewrite strict_eq_refl in H. Qed.

Lemma Cls_isDiffText_truthy (b a : jsval) :
  truthy (Cls.isDiffText b a) = true <-> truthy a = true /\ strict_eq b a = false.
Proof.
  unfold Cls.isDiffText, strict_neq. rewrite truthy_js_and, andb_true_iff. simpl.
  now rewrite negb_true_iff.
Qed.

Lemma Fn_isDiffText_truthy (b a : jsval) :
  truthy (Fn.isDiffText b a) = true <->
  truthy b = true /\ truthy a = true /\ strict_eq b a = false.
Proof.
  unfold Fn.isDiffText, strict_neq. rewrite !truthy_js_and, !andb_true_iff. simpl.
  rewrite negb_true_iff. tauto.
Qed.

(** X1: on two strings the class-style [isDiffText] is truthy exactly when
    the current text is non-empty and differs from the previous one; the
    [src/index.js] one requires in addition that the previous text is
    non-empty. *)
Theorem X1_isDiffText_on_strings (previousText currentText : string) :
  (truthy (Cls.isDiffText (VString previousText) (VString currentText)) = true
   <-> currentText <> "" /\ currentText <> previousText)
  /\
  (truthy (Fn.isDiffText (VString previousText) (VString currentText)) = true
   <-> previousText <> "" /\ currentText <> "" /\ currentText <> previousText).
Proof.
  split; [apply Cls_isDiffText_spec | apply Fn_isDiffText_spec].
Qed.

(** X2: edge inputs of [isDiffText].  An empty or [undefined] current text is
    never a change, whatever the previous value, and the value returned is
    then the current text itself, not a boolean.  With a previous text that
    was never assigned, the class-style predicate reports every non-empty
    text and the [src/index.js] predicate reports none. *)
Theorem X2_isDiffText_edge_inputs (beforeText : jsval) (currentText : string) :
  Cls.isDiffText beforeText (VString "") = VString ""
  /\ Cls.isDiffText beforeText VUndefined = VUndefined
  /\ truthy (Fn.isDiffText beforeText (VString "")) = false
  /\ truthy (Fn.isDiffText beforeText VUndefined) = false
  /\ (truthy (Cls.isDiffText VUndefined (VString currentText)) = true
      <-> currentText <> "")
  /\ Fn.isDiffText VUndefined (VString currentText) = VUndefined.
Proof.
  repeat split; try reflexivity.
  - unfold Fn.isDiffText. rewrite !truthy_js_and. simpl.
    now rewrite andb_false_r.
  - unfold Fn.isDiffText. rewrite !truthy_js_and. simpl.
    now rewrite andb_false_r.
  - intro H. now apply Cls_isDiffText_undefined.
  - intro H. now apply Cls_isDiffText_undefined.
Qed.

(** X3: edge inputs of [isDiffImage], the same in both variants.  A current
    image that is [undefined] or empty is never a change and never makes the
    predicate raise, also when there is no previous image; a non-empty
    current image with no previous image raises a [TypeError]; on two
    non-empty images the predicate is symmetric. *)
Theorem X3_isDiffImage_edge_inputs (beforeImage : jsimage) (a b : NativeImage) :
  Fn.isDiffImage = Cls.isDiffImage
  /\ Cls.isDiffImage beforeImage None = Ok VUndefined
  /\ (isEmpty a = true -> Cls.isDiffImage beforeImage (Some a) = Ok (VBool false))
  /\ (isEmpty a = false -> Cls.isDiffImage None (Some a) = Throw TypeError)
  /\ (isEmpty a = false -> isEmpty b = false ->
      Cls.isDiffImage (Some a) (Some b) = Cls.isDiffImage (Some b) (Some a)).
Proof.
  unfold Cls.isDiffImage. split; [reflexivity|]. split; [reflexivity|].
  split; [|split].
  - intros ->. reflexivity.
  - intros ->. reflexivity.
  - intros -> ->. simpl. unfold strict_neq. simpl.
    now rewrite String.eqb_sym.
Qed.

Lemma X3_isDiffImage_edge_witness :
  Cls.isDiffImage None (Some img_empty) = Ok (VBool false)
  /\ Cls.isDiffImage None (Some img_one) = Throw TypeError
  /\ Cls.isDiffImage (Some img_one) (Some img_two)
     = Cls.isDiffImage (Some img_two) (Some img_one).
Proof.
  split; [|split].
  - exact (proj1 (proj2 (proj2 (X3_isDiffImage_edge_inputs None img_empty img_one)))
                 eq_refl).
  - exact (proj1 (proj2 (proj2 (proj2 (X3_isDiffImage_edge_inputs None img_one img_two))))
                 eq_refl).
  - exact (proj2 (proj2 (proj2 (proj2 (X3_isDiffImage_edge_inputs None img_one img_two))))
                 eq_refl eq_refl).
Defined.

(** ** The two statements of a tick do not interfere *)

Ltac by_cases_on_channel :=
  repeat match goal with
         | |- context [match ?x with Some _ => _ | None => _ end] => destruct x
         | |- context [match ?x with Ok _ => _ | Throw _ => _ end] => destruct x
         | |- context [if ?b then _ else _] => destruct b
         | |- context [match ?x with Returns => _ | Raises => _ end] => destruct x
         end;
  unfold text_calls, image_calls; simpl;
  rewrite ?filter_app; simpl; rewrite ?app_nil_r; auto.

Lemma Cls_tick_image_keeps_text (h : Host) (o : Cls.ClipboardObserver) :
  text_calls (trace (fst (snd (Cls.tick_image (h, o))))) = text_calls (trace h).
Proof. rewrite Cls_tick_image_eq. cbv zeta. by_cases_on_channel. Qed.

Lemma Cls_tick_text_keeps_image (h : Host) (o : Cls.ClipboardObserver) :
  image_calls (trace (fst (snd (Cls.tick_text (h, o))))) = image_calls (trace h).
Proof. rewrite Cls_tick_text_eq. cbv zeta. by_cases_on_channel. Qed.

Lemma Fn_tick_image_keeps_text (options : Options.t) (h : Host) (v : Fn.Vars) :
  text_calls (trace (fst (snd (Fn.tick_image options (h, v))))) = text_calls (trace h).
Proof. rewrite Fn_tick_image_eq. cbv zeta. by_cases_on_channel. Qed.

Lemma Fn_tick_text_keeps_image (options : Options.t) (h : Host) (v : Fn.Vars) :
  image_calls (trace (fst (snd (Fn.tick_text options (h, v))))) = image_calls (trace h).
Proof. rewrite Fn_tick_text_eq. cbv zeta. by_cases_on_channel. Qed.

(** What a whole tick does to the text channel is what its first statement
    does. *)
Lemma Cls_tick_text_part (s : Host * Cls.ClipboardObserver) :
  text_calls (trace (fst (snd (Cls.tick s))))
  = text_calls (trace (fst (snd (Cls.tick_text s))))
  /\ Cls.beforeText (snd (snd (Cls.tick s)))
     = Cls.beforeText (snd (snd (Cls.tick_text s))).
Proof.
  rewrite Cls_tick_eq.
  destruct (Cls.tick_text s) as [[[]|e] [h1 o1]]; [|auto].
  destruct (Cls_tick_image_frame h1 o1) as (_ & _ & _ & _ & _ & _ & _ & _ & Hbt & _).
  cbv zeta in Hbt. simpl. split; [apply Cls_tick_image_keeps_text | exact Hbt].
Qed.

Lemma Fn_tick_text_part (options : Options.t) (s : Host * Fn.Vars) :
  text_calls (trace (fst (snd (Fn.tick options s))))
  = text_calls (trace (fst (snd (Fn.tick_text options s))))
  /\ Fn.beforeText (snd (snd (Fn.tick options s)))
     = Fn.beforeText (snd (snd (Fn.tick_text options s))).
Proof.
  rewrite Fn_tick_eq.
  destruct (Fn.tick_text options s) as [[[]|e] [h1 v1]]; [|auto].
  destruct (Fn_tick_image_frame options h1 v1) as (_ & _ & _ & _ & _ & Hbt & _).
  cbv zeta in Hbt. simpl. split; [apply Fn_tick_image_keeps_text | exact Hbt].
Qed.

(** What the first statement does when it finds a changed text and the
    callback returns, and when it finds the last-known text. *)
Lemma Cls_tick_text_fires (h : Host) (o : Cls.ClipboardObserver) (cb : TextCallback) :
  Cls.textChange o = Some cb ->
  truthy (Cls.isDiffText (Cls.beforeText o) (VString (clip_text h))) = true ->
  cb (trace h ++ [ReadText]) (clip_text h) (Cls.beforeText o) = Returns ->
  Cls.tick_text (h, o) =
  (Ok tt, (log (TextChange (clip_text h) (Cls.beforeText o)) (log ReadText h),
           Cls.set_beforeText (VString (clip_text h)) o)).
Proof.
  intros Hcb Hd Hr. rewrite Cls_tick_text_eq, Hcb. cbv zeta. now rewrite Hd, Hr.
Qed.

Lemma Cls_tick_text_silent (h : Host) (o : Cls.ClipboardObserver) :
  truthy (Cls.isDiffText (Cls.beforeText o) (VString (clip_text h))) = false ->
  fst (Cls.tick_text (h, o)) = Ok tt
  /\ snd (snd (Cls.tick_text (h, o))) = o
  /\ text_calls (trace (fst (snd (Cls.tick_text (h, o))))) = text_calls (trace h).
Proof.
  intro Hd. rewrite Cls_tick_text_eq. cbv zeta. rewrite Hd.
  destruct (Cls.textChange o); simpl; repeat split.
  unfold text_calls. rewrite filter_app. simpl. apply app_nil_r.
Qed.

Lemma Fn_tick_text_fires (options : Options.t) (h : Host) (v : Fn.Vars)
  (cb : TextCallback) :
  Options.textChange options = Some cb ->
  truthy (Fn.isDiffText (Fn.beforeText v) (VString (clip_text h))) = true ->
  cb (trace h ++ [ReadText]) (clip_text h) (Fn.beforeText v) = Returns ->
  Fn.tick_text options (h, v) =
  (Ok tt, (log (TextChange (clip_text h) (Fn.beforeText v)) (log ReadText h),
           Fn.set_beforeText (VString (clip_text h)) v)).
Proof.
  intros Hcb Hd Hr. rewrite Fn_tick_text_eq, Hcb. cbv zeta. now rewrite Hd, Hr.
Qed.

Lemma Fn_tick_text_silent (options : Options.t) (h : Host) (v : Fn.Vars) :
  truthy (Fn.isDiffText (Fn.beforeText v) (VString (clip_text h))) = false ->
  fst (Fn.tick_text options (h, v)) = Ok tt
  /\ snd (snd (Fn.tick_text options (h, v))) = v
  /\ text_calls (trace (fst (snd (Fn.tick_text options (h, v))))) = text_calls (trace h).
Proof.
  intro Hd. rewrite Fn_tick_text_eq. cbv zeta. rewrite Hd.
  destruct (Options.textChange options); simpl; repeat split.
  unfold text_calls. rewrite filter_app. simpl. apply app_nil_r.
Qed.

(** ** A change is delivered once *)

Lemma text_calls_fired (h : Host) (text : string) (b : jsval) :
  text_calls (trace (log (TextChange text b) (log ReadText h)))
  = text_calls (trace h) ++ [TextChange text b].
Proof.
  unfold text_calls. simpl. rewrite !filter_app. simpl. now rewrite app_nil_r.
Qed.

Lemma Cls_text_delivered_once (h : Host) (o : Cls.ClipboardObserver)
  (cb : TextCallback) (p : string) :
  Cls.textChange o = Some cb ->
  Cls.beforeText o = VString p ->
  clip_text h <> "" ->
  clip_text h <> p ->
  cb (trace h ++ [ReadText]) (clip_text h) (VString p) = Returns ->
  let s1 := snd (Cls.tick (h, o)) in
  text_calls (trace (fst s1))
  = text_calls (trace h) ++ [TextChange (clip_text h) (VString p)]
  /\ Cls.beforeText (snd s1) = VString (clip_text h)
  /\ text_calls (trace (fst (snd (Cls.tick s1)))) = text_calls (trace (fst s1))
  /\ Cls.beforeText (snd (snd (Cls.tick s1))) = VString (clip_text h).
Proof.
  intros Hcb Hbt Hne Hdf Hr. cbv zeta.
  assert (Hd : truthy (Cls.isDiffText (Cls.beforeText o) (VString (clip_text h))) = true).
  { rewrite Hbt. apply Cls_isDiffText_spec. auto. }
  rewrite <- Hbt in Hr.
  destruct (Cls_tick_text_part (h, o)) as [E1 E2].
  rewrite (Cls_tick_text_fires h o cb Hcb Hd Hr) in E1, E2.
  cbn [fst snd] in E1, E2. rewrite text_calls_fired, Hbt in E1. simpl in E2.
  destruct (Cls_tick_frame (h, o)) as (Hct & _). cbv zeta in Hct. cbn [fst snd] in Hct.
  destruct (snd (Cls.tick (h, o))) as [h1 o1]. cbn [fst snd] in *.
  split; [exact E1|]. split; [exact E2|].
  destruct (Cls_tick_text_part (h1, o1)) as [F1 F2].
  destruct (Cls_tick_text_silent h1 o1) as (_ & G2 & G3).
  { rewrite E2, Hct. apply Cls_isDiffText_same. }
  rewrite F1, F2, G2, G3. auto.
Qed.

Lemma Fn_text_delivered_once (options : Options.t) (h : Host) (v : Fn.Vars)
  (cb : TextCallback) (p : string) :
  Options.textChange options = Some cb ->
  Fn.beforeText v = VString p ->
  p <> "" ->
  clip_text h <> "" ->
  clip_text h <> p ->
  cb (trace h ++ [ReadText]) (clip_text h) (VString p) = Returns ->
  let s1 := snd (Fn.tick options (h, v)) in
  text_calls (trace (fst s1))
  = text_calls (trace h) ++ [TextChange (clip_text h) (VString p)]
  /\ Fn.beforeText (snd s1) = VString (clip_text h)
  /\ text_calls (trace (fst (snd (Fn.tick options s1)))) = text_calls (trace (fst s1))
  /\ Fn.beforeText (snd (snd (Fn.tick options s1))) = VString (clip_text h).
Proof.
  intros Hcb Hbt Hp Hne Hdf Hr. cbv zeta.
  assert (Hd : truthy (Fn.isDiffText (Fn.beforeText v) (VString (clip_text h))) = true).
  { rewrite Hbt. apply Fn_isDiffText_spec. auto. }
  rewrite <- Hbt in Hr.
  destruct (Fn_tick_text_part options (h, v)) as [E1 E2].
  rewrite (Fn_tick_text_fires options h v cb Hcb Hd Hr) in E1, E2.
  cbn [fst snd] in E1, E2. rewrite text_calls_fired, Hbt in E1. simpl in E2.
  destruct (Fn_tick_frame options (h, v)) as (Hct & _).
  cbv zeta in Hct. cbn [fst snd] in Hct.
  destruct (snd (Fn.tick options (h, v))) as [h1 v1]. cbn [fst snd] in *.
  split; [exact E1|]. split; [exact E2|].
  destruct (Fn_tick_text_part options (h1, v1)) as [F1 F2].
  destruct (Fn_tick_text_silent options h1 v1) as (_ & G2 & G3).
  { rewrite E2, Hct. apply Fn_isDiffText_same. }
  rewrite F1, F2, G2, G3. auto.
Qed.

(** X4: when a tick finds a non-empty text that differs from the last-known
    text and the callback returns, the callback is invoked once with the new
    and the previous text and the new text becomes the last-known one; the
    next tick over the same clipboard invokes no text callback.  In
    [src/index.js] this needs a non-empty last-known text. *)
Theorem X4_text_change_delivered_once
  (options : Options.t) (h : Host) (o : Cls.ClipboardObserver) (v : Fn.Vars)
  (cb : TextCallback) (p : string) :
  clip_text h <> "" ->
  clip_text h <> p ->
  cb (trace h ++ [ReadText]) (clip_text h) (VString p) = Returns ->
  (Cls.textChange o = Some cb ->
   Cls.beforeText o = VString p ->
   let s1 := snd (Cls.tick (h, o)) in
   text_calls (trace (fst s1))
   = text_calls (trace h) ++ [TextChange (clip_text h) (VString p)]
   /\ Cls.beforeText (snd s1) = VString (clip_text h)
   /\ text_calls (trace (fst (snd (Cls.tick s1)))) = text_calls (trace (fst s1))
   /\ Cls.beforeText (snd (snd (Cls.tick s1))) = VString (clip_text h))
  /\
  (Options.textChange options = Some cb ->
   Fn.beforeText v = VString p ->
   p <> "" ->
   let s1 := snd (Fn.tick options (h, v)) in
   text_calls (trace (fst s1))
   = text_calls (trace h) ++ [TextChange (clip_text h) (VString p)]
   /\ Fn.beforeText (snd s1) = VString (clip_text h)
   /\ text_calls (trace (fst (snd (Fn.tick options s1)))) = text_calls (trace (fst s1))
   /\ Fn.beforeText (snd (snd (Fn.tick options s1))) = VString (clip_text h)).
Proof.
  intros Hne Hdf Hr. split.
  - intros Hcb Hbt. now apply (Cls_text_delivered_once h o cb p).
  - intros Hcb Hbt Hp. now apply (Fn_text_delivered_once options h v cb p).
Qed.

Lemma X4_text_change_delivered_witness :
  text_calls (trace (fst (snd (Cls.tick (ex_host, ex_ok_observer)))))
  = [TextChange "B" (VString "A")]
  /\ text_calls (trace (fst (snd (Fn.tick ex_ok_options (ex_host, ex_vars)))))
     = [TextChange "B" (VString "A")].
Proof.
  destruct (X4_text_change_delivered_once
              ex_ok_options ex_host ex_ok_observer ex_vars text_ok "A")
    as [Hc Hf]; [discriminate | discriminate | reflexivity |].
  split.
  - exact (proj1 (Hc eq_refl eq_refl)).
  - refine (proj1 (Hf eq_refl eq_refl _)). discriminate.
Defined.

Lemma image_calls_fired (h : Host) (image : NativeImage) (b : jsimage) :
  image_calls (trace (log (ImageChange image b) (log ReadImage h)))
  = image_calls (trace h) ++ [ImageChange image b].
Proof.
  unfold image_calls. simpl. rewrite !filter_app. simpl. now rewrite app_nil_r.
Qed.

(** The second statement when the predicate does not report a change. *)
Lemma Cls_tick_image_silent (h : Host) (o : Cls.ClipboardObserver) :
  (forall d, Cls.isDiffImage (Cls.beforeImage o) (Some (clip_image h)) = Ok d ->
             truthy d = false) ->
  image_calls (trace (fst (snd (Cls.tick_image (h, o))))) = image_calls (trace h)
  /\ snd (snd (Cls.tick_image (h, o))) = o.
Proof.
  intro H. rewrite Cls_tick_image_eq. cbv zeta.
  destruct (Cls.imageChange o); [|auto].
  destruct (Cls.isDiffImage _ _) as [d|e].
  - rewrite (H d eq_refl). simpl. split; [|reflexivity].
    unfold image_calls. rewrite filter_app. simpl. apply app_nil_r.
  - simpl. split; [|reflexivity].
    unfold image_calls. rewrite filter_app. simpl. apply app_nil_r.
Qed.

Lemma Fn_tick_image_silent (options : Options.t) (h : Host) (v : Fn.Vars) :
  (forall d, Fn.isDiffImage (Fn.beforeImage v) (Some (clip_image h)) = Ok d ->
             truthy d = false) ->
  image_calls (trace (fst (snd (Fn.tick_image options (h, v))))) = image_calls (trace h)
  /\ snd (snd (Fn.tick_image options (h, v))) = v.
Proof.
  intro H. rewrite Fn_tick_image_eq. cbv zeta.
  destruct (Options.imageChange options); [|auto].
  destruct (Fn.isDiffImage _ _) as [d|e].
  - rewrite (H d eq_refl). simpl. split; [|reflexivity].
    unfold image_calls. rewrite filter_app. simpl. apply app_nil_r.
  - simpl. split; [|reflexivity].
    unfold image_calls. rewrite filter_app. simpl. apply app_nil_r.
Qed.

Lemma Cls_tick_silent_image (s : Host * Cls.ClipboardObserver) :
  (forall d, Cls.isDiffImage (Cls.beforeImage (snd s)) (Some (clip_image (fst s))) = Ok d ->
             truthy d = false) ->
  image_calls (trace (fst (snd (Cls.tick s)))) = image_calls (trace (fst s))
  /\ Cls.beforeImage (snd (snd (Cls.tick s))) = Cls.beforeImage (snd s).
Proof.
  destruct s as [h o]. cbn [fst snd]. intro H. rewrite Cls_tick_eq.
  pose proof (Cls_tick_text_keeps_image h o) as Hk.
  destruct (Cls_tick_text_frame h o) as (_ & Hci & _ & _ & _ & _ & _ & _ & Hbi & _).
  cbv zeta in Hci, Hbi.
  destruct (Cls.tick_text (h, o)) as [[[]|e] [h1 o1]]; cbn [fst snd] in *; [|auto].
  destruct (Cls_tick_image_silent h1 o1) as [E1 E2].
  { rewrite Hbi, Hci. exact H. }
  rewrite E1, E2. auto.
Qed.

Lemma Fn_tick_silent_image (options : Options.t) (s : Host * Fn.Vars) :
  (forall d, Fn.isDiffImage (Fn.beforeImage (snd s)) (Some (clip_image (fst s))) = Ok d ->
             truthy d = false) ->
  image_calls (trace (fst (snd (Fn.tick options s)))) = image_calls (trace (fst s))
  /\ Fn.beforeImage (snd (snd (Fn.tick options s))) = Fn.beforeImage (snd s).
Proof.
  destruct s as [h v]. cbn [fst snd]. intro H. rewrite Fn_tick_eq.
  pose proof (Fn_tick_text_keeps_image options h v) as Hk.
  destruct (Fn_tick_text_frame options h v) as (_ & Hci & _ & _ & _ & Hbi & _).
  cbv zeta in Hci, Hbi.
  destruct (Fn.tick_text options (h, v)) as [[[]|e] [h1 v1]]; cbn [fst snd] in *; [|auto].
  destruct (Fn_tick_image_silent options h1 v1) as [E1 E2].
  { rewrite Hbi, Hci. exact H. }
  rewrite E1, E2. auto.
Qed.

Lemma isDiffImage_changed (b img : NativeImage) :
  isEmpty img = false ->
  toDataURL img <> toDataURL b ->
  Cls.isDiffImage (Some b) (Some img) = Ok (VBool true).
Proof.
  intros He Hd. unfold Cls.isDiffImage, strict_neq. rewrite He. simpl.
  destruct (String.eqb_spec (toDataURL b) (toDataURL img)); [congruence|reflexivity].
Qed.

Lemma Cls_image_delivered_once (h h1 : Host) (o o1 : Cls.ClipboardObserver)
  (cb : ImageCallback) (b : NativeImage) :
  Cls.tick_text (h, o) = (Ok tt, (h1, o1)) ->
  Cls.imageChange o = Some cb ->
  Cls.beforeImage o = Some b ->
  isEmpty (clip_image h) = false ->
  toDataURL (clip_image h) <> toDataURL b ->
  cb (trace h1 ++ [ReadImage]) (clip_image h) (Some b) = Returns ->
  let s1 := snd (Cls.tick (h, o)) in
  fst (Cls.tick (h, o)) = Ok tt
  /\ image_calls (trace (fst s1))
     = image_calls (trace h) ++ [ImageChange (clip_image h) (Some b)]
  /\ Cls.beforeImage (snd s1) = Some (clip_image h)
  /\ image_calls (trace (fst (snd (Cls.tick s1)))) = image_calls (trace (fst s1))
  /\ Cls.beforeImage (snd (snd (Cls.tick s1))) = Some (clip_image h).
Proof.
  intros Ht Hcb Hb He Hd Hr. cbv zeta.
  pose proof (Cls_tick_text_keeps_image h o) as Hk.
  destruct (Cls_tick_text_frame h o) as (_ & Hci & _ & _ & _ & _ & _ & Hic & Hbi & _).
  cbv zeta in Hci, Hic, Hbi. rewrite Ht in Hk, Hci, Hic, Hbi. cbn [fst snd] in *.
  assert (E : Cls.tick (h, o) =
              (Ok tt, (log (ImageChange (clip_image h) (Some b)) (log ReadImage h1),
                       Cls.set_beforeImage (Some (clip_image h)) o1))).
  { rewrite Cls_tick_eq, Ht, Cls_tick_image_eq, Hic, Hcb. cbv zeta.
    rewrite Hci, Hbi, Hb, (isDiffImage_changed b _ He Hd). simpl truthy. cbv iota.
    now rewrite Hr. }
  rewrite E. cbn [fst snd]. rewrite image_calls_fired, Hk.
  split; [reflexivity|]. split; [reflexivity|]. split; [reflexivity|].
  match goal with |- context [Cls.tick ?s] =>
    destruct (Cls_tick_silent_image s) as [F1 F2]
  end.
  { cbn [fst snd]. simpl clip_image. simpl Cls.beforeImage. rewrite Hci.
    intros d Hdd. rewrite isDiffImage_same_image in Hdd. now injection Hdd as <-. }
  rewrite F1, F2. cbn [fst snd]. rewrite image_calls_fired, Hk. auto.
Qed.

Lemma Fn_image_delivered_once (options : Options.t) (h h1 : Host) (v v1 : Fn.Vars)
  (cb : ImageCallback) (b : NativeImage) :
  Fn.tick_text options (h, v) = (Ok tt, (h1, v1)) ->
  Options.imageChange options = Some cb ->
  Fn.beforeImage v = Some b ->
  isEmpty (clip_image h) = false ->
  toDataURL (clip_image h) <> toDataURL b ->
  cb (trace h1 ++ [ReadImage]) (clip_image h) (Some b) = Returns ->
  let s1 := snd (Fn.tick options (h, v)) in
  fst (Fn.tick options (h, v)) = Ok tt
  /\ image_calls (trace (fst s1))
     = image_calls (trace h) ++ [ImageChange (clip_image h) (Some b)]
  /\ Fn.beforeImage (snd s1) = Some (clip_image h)
  /\ image_calls (trace (fst (snd (Fn.tick options s1)))) = image_calls (trace (fst s1))
  /\ Fn.beforeImage (snd (snd (Fn.tick options s1))) = Some (clip_image h).
Proof.
  intros Ht Hcb Hb He Hd Hr. cbv zeta.
  pose proof (Fn_tick_text_keeps_image options h v) as Hk.
  destruct (Fn_tick_text_frame options h v) as (_ & Hci & _ & _ & _ & Hbi & _).
  cbv zeta in Hci, Hbi. rewrite Ht in Hk, Hci, Hbi. cbn [fst snd] in *.
  assert (E : Fn.tick options (h, v) =
              (Ok tt, (log (ImageChange (clip_image h) (Some b)) (log ReadImage h1),
                       Fn.set_beforeImage (Some (clip_image h)) v1))).
  { rewrite Fn_tick_eq, Ht, Fn_tick_image_eq, Hcb. cbv zeta.
    rewrite Hci, Hbi, Hb, isDiffImage_same, (isDiffImage_changed b _ He Hd).
    simpl truthy. cbv iota. now rewrite Hr. }
  rewrite E. cbn [fst snd]. rewrite image_calls_fired, Hk.
  split; [reflexivity|]. split; [reflexivity|]. split; [reflexivity|].
  match goal with |- context [Fn.tick options ?s] =>
    destruct (Fn_tick_silent_image options s) as [F1 F2]
  end.
  { cbn [fst snd]. simpl clip_image. simpl Fn.beforeImage. rewrite Hci.
    intros d Hdd. rewrite isDiffImage_same, isDiffImage_same_image in Hdd.
    now injection Hdd as <-. }
  rewrite F1, F2. cbn [fst snd]. rewrite image_calls_fired, Hk. auto.
Qed.

(** X5: when a tick whose text statement returns finds a non-empty image
    whose [toDataURL()] differs from the last-known image's and the callback
    returns, the tick returns, the callback is invoked once with the new and
    the previous image, and the new image becomes the last-known one; the
    next tick over the same clipboard invokes no image callback. *)
Theorem X5_image_change_delivered_once
  (options : Options.t) (h h1 : Host)
  (o o1 : Cls.ClipboardObserver) (v v1 : Fn.Vars)
  (cb : ImageCallback) (b : NativeImage) :
  isEmpty (clip_image h) = false ->
  toDataURL (clip_image h) <> toDataURL b ->
  cb (trace h1 ++ [ReadImage]) (clip_image h) (Some b) = Returns ->
  (Cls.tick_text (h, o) = (Ok tt, (h1, o1)) ->
   Cls.imageChange o = Some cb ->
   Cls.beforeImage o = Some b ->
   let s1 := snd (Cls.tick (h, o)) in
   fst (Cls.tick (h, o)) = Ok tt
   /\ image_calls (trace (fst s1))
      = image_calls (trace h) ++ [ImageChange (clip_image h) (Some b)]
   /\ Cls.beforeImage (snd s1) = Some (clip_image h)
   /\ image_calls (trace (fst (snd (Cls.tick s1)))) = image_calls (trace (fst s1))
   /\ Cls.beforeImage (snd (snd (Cls.tick s1))) = Some (clip_image h))
  /\
  (Fn.tick_text options (h, v) = (Ok tt, (h1, v1)) ->
   Options.imageChange options = Some cb ->
   Fn.beforeImage v = Some b ->
   let s1 := snd (Fn.tick options (h, v)) in
   fst (Fn.tick options (h, v)) = Ok tt
   /\ image_calls (trace (fst s1))
      = image_calls (trace h) ++ [ImageChange (clip_image h) (Some b)]
   /\ Fn.beforeImage (snd s1) = Some (clip_image h)
   /\ image_calls (trace (fst (snd (Fn.tick options s1)))) = image_calls (trace (fst s1))
   /\ Fn.beforeImage (snd (snd (Fn.tick options s1))) = Some (clip_image h)).
Proof.
  intros He Hd Hr. split.
  - intros Ht Hcb Hb. now apply (Cls_image_delivered_once h h1 o o1 cb b).
  - intros Ht Hcb Hb. now apply (Fn_image_delivered_once options h h1 v v1 cb b).
Qed.

Lemma X5_image_change_delivered_witness :
  image_calls
    (trace (fst (snd (Cls.tick
                        (ex_host, Cls.set_imageChange (Some image_ok) ex_image_observer)))))
  = [ImageChange img_two (Some img_one)]
  /\ image_calls (trace (fst (snd (Fn.tick (Options.mk Absent None (Some image_ok))
                                           (ex_host, ex_vars)))))
     = [ImageChange img_two (Some img_one)]
  /\ Fn.beforeImage (snd (snd (Fn.tick (Options.mk Absent None (Some image_ok))
                                       (ex_host, ex_vars)))) = Some img_two.
Proof.
  split.
  - destruct (X5_image_change_delivered_once
                ex_image_options ex_host ex_host
                (Cls.set_imageChange (Some image_ok) ex_image_observer)
                (Cls.set_imageChange (Some image_ok) ex_image_observer)
                ex_vars ex_vars image_ok img_one)
      as [Hc _]; [reflexivity | discriminate | reflexivity |].
    exact (proj1 (proj2 (Hc eq_refl eq_refl eq_refl))).
  - destruct (X5_image_change_delivered_once
                (Options.mk Absent None (Some image_ok)) ex_host ex_host
                ex_image_observer ex_image_observer
                ex_vars ex_vars image_ok img_one)
      as [_ Hf]; [reflexivity | discriminate | reflexivity |].
    split.
    + exact (proj1 (proj2 (Hf eq_refl eq_refl eq_refl))).
    + exact (proj1 (proj2 (proj2 (Hf eq_refl eq_refl eq_refl)))).
Defined.

(** ** Empty clipboard content *)

Lemma Cls_isDiffText_empty_current (b : jsval) :
  truthy (Cls.isDiffText b (VString "")) = false.
Proof. reflexivity. Qed.

Lemma Fn_isDiffText_empty_current (b : jsval) :
  truthy (Fn.isDiffText b (VString "")) = false.
Proof.
  unfold Fn.isDiffText. rewrite !truthy_js_and. simpl. now rewrite andb_false_r.
Qed.

(** X6: a tick that reads an empty text never invokes [textChange] and keeps
    the last-known text, whatever that is, in both variants: clearing the
    clipboard text is not reported. *)
Theorem X6_empty_text_never_reported
  (options : Options.t) (h : Host) (o : Cls.ClipboardObserver) (v : Fn.Vars) :
  clip_text h = "" ->
  (text_calls (trace (fst (snd (Cls.tick (h, o))))) = text_calls (trace h)
   /\ Cls.beforeText (snd (snd (Cls.tick (h, o)))) = Cls.beforeText o)
  /\
  (text_calls (trace (fst (snd (Fn.tick options (h, v))))) = text_calls (trace h)
   /\ Fn.beforeText (snd (snd (Fn.tick options (h, v)))) = Fn.beforeText v).
Proof.
  intro He. split.
  - destruct (Cls_tick_text_part (h, o)) as [E1 E2].
    destruct (Cls_tick_text_silent h o) as (_ & G2 & G3).
    { rewrite He. apply Cls_isDiffText_empty_current. }
    rewrite E1, E2, G2, G3. auto.
  - destruct (Fn_tick_text_part options (h, v)) as [E1 E2].
    destruct (Fn_tick_text_silent options h v) as (_ & G2 & G3).
    { rewrite He. apply Fn_isDiffText_empty_current. }
    rewrite E1, E2, G2, G3. auto.
Qed.

Lemma X6_empty_text_witness :
  text_calls (trace (fst (snd (Cls.tick (fresh "" img_two, ex_ok_observer))))) = []
  /\ Cls.beforeText (snd (snd (Cls.tick (fresh "" img_two, ex_ok_observer))))
     = VString "A".
Proof.
  exact (proj1 (X6_empty_text_never_reported
                  ex_ok_options (fresh "" img_two) ex_ok_observer ex_vars eq_refl)).
Defined.

(** The only way a tick raises a [TypeError]: [imageChange] is configured,
    no image was ever stored, and the clipboard image is not empty. *)
Lemma Cls_tick_TypeError (h : Host) (o : Cls.ClipboardObserver) :
  fst (Cls.tick (h, o)) = Throw TypeError ->
  Cls.imageChange o <> None /\ Cls.beforeImage o = None
  /\ isEmpty (clip_image h) = false.
Proof.
  rewrite Cls_tick_eq.
  destruct (Cls_tick_text_frame h o) as (_ & Hci & _ & _ & _ & _ & _ & Hic & Hbi & _).
  cbv zeta in Hci, Hic, Hbi.
  assert (Ht : fst (Cls.tick_text (h, o)) <> Throw TypeError).
  { rewrite Cls_tick_text_eq. cbv zeta.
    destruct (Cls.textChange o) as [cb|]; [|discriminate].
    destruct (truthy _); [|discriminate].
    destruct (cb _ _ _); discriminate. }
  destruct (Cls.tick_text (h, o)) as [[[]|e] [h1 o1]]; cbn [fst snd] in *.
  - rewrite Cls_tick_image_eq, Hic, Hbi, Hci. cbv zeta.
    destruct (Cls.imageChange o) as [cb|]; [|discriminate].
    unfold Cls.isDiffImage.
    destruct (isEmpty (clip_image h)); simpl.
    + discriminate.
    + destruct (Cls.beforeImage o); simpl.
      * repeat match goal with
               | |- context [if ?c then _ else _] => destruct c
               | |- context [match ?x with Returns => _ | Raises => _ end] => destruct x
               end; discriminate.
      * intros _. repeat split. discriminate.
  - intro H. contradiction.
Qed.

Lemma Fn_tick_TypeError (options : Options.t) (h : Host) (v : Fn.Vars) :
  fst (Fn.tick options (h, v)) = Throw TypeError ->
  Options.imageChange options <> None /\ Fn.beforeImage v = None
  /\ isEmpty (clip_image h) = false.
Proof.
  rewrite Fn_tick_eq.
  destruct (Fn_tick_text_frame options h v) as (_ & Hci & _ & _ & _ & Hbi & _).
  cbv zeta in Hci, Hbi.
  assert (Ht : fst (Fn.tick_text options (h, v)) <> Throw TypeError).
  { rewrite Fn_tick_text_eq. cbv zeta.
    destruct (Options.textChange options) as [cb|]; [|discriminate].
    destruct (truthy _); [|discriminate].
    destruct (cb _ _ _); discriminate. }
  destruct (Fn.tick_text options (h, v)) as [[[]|e] [h1 v1]]; cbn [fst snd] in *.
  - rewrite Fn_tick_image_eq, Hbi, Hci. cbv zeta.
    destruct (Options.imageChange options) as [cb|]; [|discriminate].
    unfold Fn.isDiffImage.
    destruct (isEmpty (clip_image h)); simpl.
    + discriminate.
    + destruct (Fn.beforeImage v); simpl.
      * repeat match goal with
               | |- context [if ?c then _ else _] => destruct c
               | |- context [match ?x with Returns => _ | Raises => _ end] => destruct x
               end; discriminate.
      * intros _. repeat split. discriminate.
  - intro H. contradiction.
Qed.

(** X7: a tick that reads an empty image never invokes [imageChange], keeps
    the last-known image and does not raise a [TypeError], also when no image
    was ever stored, in both variants. *)
Theorem X7_empty_image_never_reported
  (options : Options.t) (h : Host) (o : Cls.ClipboardObserver) (v : Fn.Vars) :
  isEmpty (clip_image h) = true ->
  (image_calls (trace (fst (snd (Cls.tick (h, o))))) = image_calls (trace h)
   /\ Cls.beforeImage (snd (snd (Cls.tick (h, o)))) = Cls.beforeImage o
   /\ fst (Cls.tick (h, o)) <> Throw TypeError)
  /\
  (image_calls (trace (fst (snd (Fn.tick options (h, v))))) = image_calls (trace h)
   /\ Fn.beforeImage (snd (snd (Fn.tick options (h, v)))) = Fn.beforeImage v
   /\ fst (Fn.tick options (h, v)) <> Throw TypeError).
Proof.
  intro He. split.
  - destruct (Cls_tick_silent_image (h, o)) as [E1 E2].
    { cbn [fst snd]. unfold Cls.isDiffImage. rewrite He. simpl.
      intros d Hd. now injection Hd as <-. }
    cbn [fst snd] in E1, E2. repeat split; auto.
    intro H. apply Cls_tick_TypeError in H. destruct H as (_ & _ & H). congruence.
  - destruct (Fn_tick_silent_image options (h, v)) as [E1 E2].
    { cbn [fst snd]. unfold Fn.isDiffImage. rewrite He. simpl.
      intros d Hd. now injection Hd as <-. }
    cbn [fst snd] in E1, E2. repeat split; auto.
    intro H. apply Fn_tick_TypeError in H. destruct H as (_ & _ & H). congruence.
Qed.

Lemma X7_empty_image_witness :
  image_calls (trace (fst (snd (Cls.tick (fresh "A" img_empty, ex_image_observer))))) = []
  /\ Cls.beforeImage (snd (snd (Cls.tick (fresh "A" img_empty, ex_image_observer))))
     = Some img_one
  /\ fst (Cls.tick (fresh "A" img_empty, ex_image_observer)) <> Throw TypeError.
Proof.
  exact (proj1 (X7_empty_image_never_reported
                  ex_image_options (fresh "A" img_empty) ex_image_observer ex_vars
                  eq_refl)).
Defined.

(** ** Invariants of whole runs *)

Lemma isDiffImage_truthy (bi : jsimage) (img : NativeImage) (d : jsval) :
  Cls.isDiffImage bi (Some img) = Ok d ->
  truthy d = true ->
  isEmpty img = false /\ exists b, bi = Some b /\ toDataURL b <> toDataURL img.
Proof.
  unfold Cls.isDiffImage. destruct (isEmpty img); simpl.
  - intros H. injection H as <-. discriminate.
  - destruct bi as [b|]; simpl; [|discriminate].
    intros H Ht. injection H as <-. apply strict_neq_string in Ht.
    split; [reflexivity|]. exists b. auto.
Qed.

Lemma genuine_text (b : jsval) (text : string) :
  truthy (VString text) = true -> strict_eq b (VString text) = false ->
  genuine (TextChange text b).
Proof.
  intros Ht He. split.
  - now apply truthy_string.
  - now apply strict_eq_false_neq.
Qed.

Lemma Forall_genuine_snoc (tr : list event) (e : event) :
  Forall genuine tr -> genuine e -> Forall genuine (tr ++ [e]).
Proof. intros H He. apply Forall_app. split; [assumption|]. now constructor. Qed.

Lemma Cls_tick_text_genuine (h : Host) (o : Cls.ClipboardObserver) :
  Forall genuine (trace h) ->
  Forall genuine (trace (fst (snd (Cls.tick_text (h, o))))).
Proof.
  intro H. rewrite Cls_tick_text_eq. cbv zeta.
  destruct (Cls.textChange o) as [cb|]; [|exact H].
  destruct (truthy _) eqn:Hd.
  - apply Cls_isDiffText_truthy in Hd. destruct Hd as [Ht He].
    assert (G : Forall genuine (trace (log (TextChange (clip_text h) (Cls.beforeText o))
                                           (log ReadText h)))).
    { simpl. apply Forall_genuine_snoc; [apply Forall_genuine_snoc; simpl; auto|].
      apply genuine_text; auto. }
    destruct (cb _ _ _); exact G.
  - simpl. apply Forall_genuine_snoc; simpl; auto.
Qed.

Lemma Cls_tick_image_genuine (h : Host) (o : Cls.ClipboardObserver) :
  Forall genuine (trace h) ->
  Forall genuine (trace (fst (snd (Cls.tick_image (h, o))))).
Proof.
  intro H. rewrite Cls_tick_image_eq. cbv zeta.
  destruct (Cls.imageChange o) as [cb|]; [|exact H].
  destruct (Cls.isDiffImage _ _) as [d|e] eqn:Hdiff.
  - destruct (truthy d) eqn:Hd.
    + assert (G : Forall genuine
                    (trace (log (ImageChange (clip_image h) (Cls.beforeImage o))
                                (log ReadImage h)))).
      { simpl. apply Forall_genuine_snoc; [apply Forall_genuine_snoc; simpl; auto|].
        exact (isDiffImage_truthy _ _ d Hdiff Hd). }
      destruct (cb _ _ _); exact G.
    + simpl. apply Forall_genuine_snoc; simpl; auto.
  - simpl. apply Forall_genuine_snoc; simpl; auto.
Qed.

Lemma Cls_tick_genuine (s : Host * Cls.ClipboardObserver) :
  Forall genuine (trace (fst s)) ->
  Forall genuine (trace (fst (snd (Cls.tick s)))).
Proof.
  destruct s as [h o]. cbn [fst snd]. intro H. rewrite Cls_tick_eq.
  pose proof (Cls_tick_text_genuine h o H) as G.
  destruct (Cls.tick_text (h, o)) as [[[]|e] [h1 o1]]; cbn [fst snd] in *; [|exact G].
  now apply Cls_tick_image_genuine.
Qed.

Lemma Forall_genuine_seed {A B} (f : option A) (g : option B) (tr : list event) :
  Forall genuine tr -> Forall genuine (tr ++ seed_events f g).
Proof.
  intro H. apply Forall_app. split; [assumption|].
  unfold seed_events. destruct f, g; simpl; repeat constructor.
Qed.

Lemma Cls_exec_genuine (op : Cls.op) (s : Host * Cls.ClipboardObserver) :
  Forall genuine (trace (fst s)) ->
  Forall genuine (trace (fst (Cls.exec op s))).
Proof.
  intro H. destruct op as [| | |id|text image]; simpl.
  - destruct (Cls_start_seeds s) as (Htr & _). cbv zeta in Htr. rewrite Htr.
    now apply Forall_genuine_seed.
  - exact H.
  - unfold Cls.clearTimer, bind, get. destruct (Cls.timer (snd s)); exact H.
  - destruct (active id (fst s)); [now apply Cls_tick_genuine | exact H].
  - exact H.
Qed.

Lemma Cls_run_genuine (ops : list Cls.op) (s : Host * Cls.ClipboardObserver) :
  Forall genuine (trace (fst s)) ->
  Forall genuine (trace (fst (Cls.run ops s))).
Proof.
  revert s. induction ops as [|op ops IH]; intros s H; [exact H|].
  unfold Cls.run in *. simpl. apply IH. now apply Cls_exec_genuine.
Qed.

Lemma Fn_tick_text_genuine (options : Options.t) (h : Host) (v : Fn.Vars) :
  Forall genuine (trace h) ->
  Forall genuine (trace (fst (snd (Fn.tick_text options (h, v))))).
Proof.
  intro H. rewrite Fn_tick_text_eq. cbv zeta.
  destruct (Options.textChange options) as [cb|]; [|exact H].
  destruct (truthy _) eqn:Hd.
  - apply Fn_isDiffText_truthy in Hd. destruct Hd as (_ & Ht & He).
    assert (G : Forall genuine (trace (log (TextChange (clip_text h) (Fn.beforeText v))
                                           (log ReadText h)))).
    { simpl. apply Forall_genuine_snoc; [apply Forall_genuine_snoc; simpl; auto|].
      apply genuine_text; auto. }
    destruct (cb _ _ _); exact G.
  - simpl. apply Forall_genuine_snoc; simpl; auto.
Qed.

Lemma Fn_tick_image_genuine (options : Options.t) (h : Host) (v : Fn.Vars) :
  Forall genuine (trace h) ->
  Forall genuine (trace (fst (snd (Fn.tick_image options (h, v))))).
Proof.
  intro H. rewrite Fn_tick_image_eq. cbv zeta.
  destruct (Options.imageChange options) as [cb|]; [|exact H].
  destruct (Fn.isDiffImage _ _) as [d|e] eqn:Hdiff.
  - destruct (truthy d) eqn:Hd.
    + assert (G : Forall genuine
                    (trace (log (ImageChange (clip_image h) (Fn.beforeImage v))
                                (log ReadImage h)))).
      { simpl. apply Forall_genuine_snoc; [apply Forall_genuine_snoc; simpl; auto|].
        rewrite isDiffImage_same in Hdiff.
        exact (isDiffImage_truthy _ _ d Hdiff Hd). }
      destruct (cb _ _ _); exact G.
    + simpl. apply Forall_genuine_snoc; simpl; auto.
  - simpl. apply Forall_genuine_snoc; simpl; auto.
Qed.

Lemma Fn_tick_genuine (options : Options.t) (s : Host * Fn.Vars) :
  Forall genuine (trace (fst s)) ->
  Forall genuine (trace (fst (snd (Fn.tick options s)))).
Proof.
  destruct s as [h v]. cbn [fst snd]. intro H. rewrite Fn_tick_eq.
  pose proof (Fn_tick_text_genuine options h v H) as G.
  destruct (Fn.tick_text options (h, v)) as [[[]|e] [h1 v1]]; cbn [fst snd] in *;
    [|exact G].
  now apply Fn_tick_image_genuine.
Qed.

Lemma Fn_run_genuine (options : Options.t) (ops : list Fn.op) (s : Host * Fn.Vars) :
  Forall genuine (trace (fst s)) ->
  Forall genuine (trace (fst (Fn.run options ops s))).
Proof.
  revert s. induction ops as [|op ops IH]; intros s H; [exact H|].
  unfold Fn.run in *. simpl. apply IH.
  destruct op as [|id|text image]; simpl.
  - unfold Fn.destroy, bind, get. destruct (Fn.timer (snd s)); exact H.
  - destruct (active id (fst s)); [now apply Fn_tick_genuine | exact H].
  - exact H.
Qed.

(** X8: whatever happens to an observer after its construction (method
    calls, ticks, clipboard writes, callbacks that raise), every invocation
    of [textChange] carries a non-empty text different from the previous
    value it is given, and every invocation of [imageChange] carries a
    non-empty image and a previous image with another [toDataURL()]. *)
Theorem X8_callbacks_only_see_changes
  (options : Options.t) (h : Host) (fn_ops : list Fn.op) (cls_ops : list Cls.op) :
  Forall genuine (trace h) ->
  Forall genuine (trace (fst (Cls.run cls_ops (Cls.create options h))))
  /\ Forall genuine
       (trace (fst (Fn.run (Fn.merged options) fn_ops (Fn.create options h)))).
Proof.
  intro H. split.
  - apply Cls_run_genuine.
    destruct (Cls_create_seeds options h) as (Htr & _). cbv zeta in Htr.
    rewrite Htr. now apply Forall_genuine_seed.
  - apply Fn_run_genuine.
    destruct (Fn_create_seeds options h) as (Htr & _). cbv zeta in Htr.
    rewrite Htr. now apply Forall_genuine_seed.
Qed.

Lemma X8_callbacks_only_see_changes_witness :
  Forall genuine
    (trace (fst (Cls.run [Cls.Copy "B" img_two; Cls.Tick 0; Cls.Stop; Cls.Tick 1]
                         (Cls.create ex_ok_options (fresh "A" img_one)))))
  /\ Forall genuine
       (trace (fst (Fn.run (Fn.merged ex_ok_options)
                           [Fn.Copy "B" img_two; Fn.Tick 0]
                           (Fn.create ex_ok_options (fresh "A" img_one))))).
Proof.
  apply (X8_callbacks_only_see_changes ex_ok_options (fresh "A" img_one)).
  constructor.
Defined.

(** Once an image is stored, one stays stored. *)
Lemma Cls_tick_keeps_image_stored (s : Host * Cls.ClipboardObserver) :
  Cls.beforeImage (snd s) <> None ->
  Cls.beforeImage (snd (snd (Cls.tick s))) <> None.
Proof.
  destruct s as [h o]. cbn [fst snd]. intro H. rewrite Cls_tick_eq.
  destruct (Cls_tick_text_frame h o) as (_ & _ & _ & _ & _ & _ & _ & _ & Hbi & _).
  cbv zeta in Hbi.
  destruct (Cls.tick_text (h, o)) as [[[]|e] [h1 o1]]; cbn [fst snd] in *;
    [|congruence].
  rewrite Cls_tick_image_eq. cbv zeta.
  destruct (Cls.imageChange o1) as [cb|]; [|simpl; congruence].
  destruct (Cls.isDiffImage _ _) as [d|e]; [|simpl; congruence].
  destruct (truthy d); [|simpl; congruence].
  destruct (cb _ _ _); simpl; congruence.
Qed.

Lemma Fn_tick_keeps_image_stored (options : Options.t) (s : Host * Fn.Vars) :
  Fn.beforeImage (snd s) <> None ->
  Fn.beforeImage (snd (snd (Fn.tick options s))) <> None.
Proof.
  destruct s as [h v]. cbn [fst snd]. intro H. rewrite Fn_tick_eq.
  destruct (Fn_tick_text_frame options h v) as (_ & _ & _ & _ & _ & Hbi & _).
  cbv zeta in Hbi.
  destruct (Fn.tick_text options (h, v)) as [[[]|e] [h1 v1]]; cbn [fst snd] in *;
    [|congruence].
  rewrite Fn_tick_image_eq. cbv zeta.
  destruct (Options.imageChange options) as [cb|]; [|simpl; congruence].
  destruct (Fn.isDiffImage _ _) as [d|e]; [|simpl; congruence].
  destruct (truthy d); [|simpl; congruence].
  destruct (cb _ _ _); simpl; congruence.
Qed.

Lemma Cls_exec_image_stored (op : Cls.op) (s : Host * Cls.ClipboardObserver) :
  (Cls.imageChange (snd s) <> None -> Cls.beforeImage (snd s) <> None) ->
  Cls.imageChange (snd (Cls.exec op s)) <> None ->
  Cls.beforeImage (snd (Cls.exec op s)) <> None.
Proof.
  intro H. destruct op as [| | |id|text image]; simpl.
  - destruct (Cls_start_seeds s) as (_ & _ & Hbi & _ & _ & _ & Hic).
    cbv zeta in Hbi, Hic. rewrite Hbi, Hic.
    destruct (Cls.imageChange (snd s)); simpl; congruence.
  - exact H.
  - unfold Cls.clearTimer, bind, get. destruct (Cls.timer (snd s)); exact H.
  - destruct (active id (fst s)); [|exact H].
    destruct (Cls_tick_frame s) as (_ & _ & _ & _ & _ & _ & _ & Hic & _).
    cbv zeta in Hic. rewrite Hic. intro K.
    apply Cls_tick_keeps_image_stored. auto.
  - exact H.
Qed.

Lemma Cls_run_image_stored (ops : list Cls.op) (s : Host * Cls.ClipboardObserver) :
  (Cls.imageChange (snd s) <> None -> Cls.beforeImage (snd s) <> None) ->
  Cls.imageChange (snd (Cls.run ops s)) <> None ->
  Cls.beforeImage (snd (Cls.run ops s)) <> None.
Proof.
  revert s. induction ops as [|op ops IH]; intros s H; [exact H|].
  unfold Cls.run in *. simpl. apply IH. now apply Cls_exec_image_stored.
Qed.

Lemma Fn_run_image_stored (options : Options.t) (ops : list Fn.op) (s : Host * Fn.Vars) :
  Fn.beforeImage (snd s) <> None ->
  Fn.beforeImage (snd (Fn.run options ops s)) <> None.
Proof.
  revert s. induction ops as [|op ops IH]; intros s H; [exact H|].
  unfold Fn.run in *. simpl. apply IH.
  destruct op as [|id|text image]; simpl.
  - unfold Fn.destroy, bind, get. destruct (Fn.timer (snd s)); exact H.
  - destruct (active id (fst s)); [now apply Fn_tick_keeps_image_stored | exact H].
  - exact H.
Qed.

(** X9: no tick of an observer that is driven through its constructor and
    methods raises a [TypeError]: when [imageChange] is configured a
    last-known image is always stored, so [beforeImage.toDataURL()] is never
    called on [undefined].  An exception that leaves a tick comes from a
    callback. *)
Theorem X9_ticks_raise_only_callback_errors
  (options : Options.t) (h : Host) (fn_ops : list Fn.op) (cls_ops : list Cls.op) :
  fst (Cls.tick (Cls.run cls_ops (Cls.create options h))) <> Throw TypeError
  /\ fst (Fn.tick (Fn.merged options)
                  (Fn.run (Fn.merged options) fn_ops (Fn.create options h)))
     <> Throw TypeError.
Proof.
  split.
  - intro H.
    destruct (Cls.run cls_ops (Cls.create options h)) as [h1 o1] eqn:E.
    apply Cls_tick_TypeError in H. destruct H as (Hic & Hbi & _).
    revert Hbi. change o1 with (snd (h1, o1)). rewrite <- E.
    apply Cls_run_image_stored.
    + destruct (Cls_create_seeds options h) as (_ & _ & Hb & _ & _ & _ & Hg).
      cbv zeta in Hb, Hg. rewrite Hb, Hg.
      destruct (Options.imageChange options); simpl; congruence.
    + rewrite E. exact Hic.
  - intro H.
    destruct (Fn.run (Fn.merged options) fn_ops (Fn.create options h)) as [h1 v1] eqn:E.
    apply Fn_tick_TypeError in H. destruct H as (Hic & Hbi & _).
    revert Hbi. change v1 with (snd (h1, v1)). rewrite <- E.
    apply Fn_run_image_stored.
    destruct (Fn_create_seeds options h) as (_ & _ & Hb & _).
    cbv zeta in Hb. rewrite Hb.
    destruct (Fn_merged_callbacks options) as (_ & Hg). rewrite Hg in Hic.
    destruct (Options.imageChange options); simpl; congruence.
Qed.

(** ** Text first, then image *)

Lemma Cls_both_channels (h : Host) (o : Cls.ClipboardObserver)
  (f : TextCallback) (g : ImageCallback) (p : string) (b : NativeImage) :
  Cls.textChange o = Some f ->
  Cls.imageChange o = Some g ->
  Cls.beforeText o = VString p ->
  Cls.beforeImage o = Some b ->
  clip_text h <> "" -> clip_text h <> p ->
  isEmpty (clip_image h) = false -> toDataURL (clip_image h) <> toDataURL b ->
  match f (trace h ++ [ReadText]) (clip_text h) (VString p) with
  | Returns =>
      trace (fst (snd (Cls.tick (h, o)))) =
      trace h ++ [ReadText; TextChange (clip_text h) (VString p);
                  ReadImage; ImageChange (clip_image h) (Some b)]
  | Raises =>
      trace (fst (snd (Cls.tick (h, o)))) =
      trace h ++ [ReadText; TextChange (clip_text h) (VString p)]
      /\ Cls.beforeImage (snd (snd (Cls.tick (h, o)))) = Some b
  end.
Proof.
  intros Hf Hg Hp Hb Hne Hdf He Hu.
  assert (Hd : truthy (Cls.isDiffText (Cls.beforeText o) (VString (clip_text h))) = true).
  { rewrite Hp. apply Cls_isDiffText_spec. auto. }
  destruct (f _ _ _) eqn:Hr; rewrite <- Hp in Hr.
  - rewrite Cls_tick_eq, (Cls_tick_text_fires h o f Hf Hd Hr), Cls_tick_image_eq.
    simpl Cls.imageChange. rewrite Hg. cbv zeta.
    simpl clip_image. simpl Cls.beforeImage.
    rewrite Hb, (isDiffImage_changed b _ He Hu), Hp. simpl truthy. cbv iota.
    destruct (g _ _ _); simpl; now rewrite <- !app_assoc.
  - rewrite (Cls_text_raises h o f Hf Hd Hr). simpl. rewrite Hp, <- app_assoc.
    auto.
Qed.

Lemma Fn_both_channels (options : Options.t) (h : Host) (v : Fn.Vars)
  (f : TextCallback) (g : ImageCallback) (p : string) (b : NativeImage) :
  Options.textChange options = Some f ->
  Options.imageChange options = Some g ->
  Fn.beforeText v = VString p ->
  Fn.beforeImage v = Some b ->
  p <> "" ->
  clip_text h <> "" -> clip_text h <> p ->
  isEmpty (clip_image h) = false -> toDataURL (clip_image h) <> toDataURL b ->
  match f (trace h ++ [ReadText]) (clip_text h) (VString p) with
  | Returns =>
      trace (fst (snd (Fn.tick options (h, v)))) =
      trace h ++ [ReadText; TextChange (clip_text h) (VString p);
                  ReadImage; ImageChange (clip_image h) (Some b)]
  | Raises =>
      trace (fst (snd (Fn.tick options (h, v)))) =
      trace h ++ [ReadText; TextChange (clip_text h) (VString p)]
      /\ Fn.beforeImage (snd (snd (Fn.tick options (h, v)))) = Some b
  end.
Proof.
  intros Hf Hg Hp Hb Hpne Hne Hdf He Hu.
  assert (Hd : truthy (Fn.isDiffText (Fn.beforeText v) (VString (clip_text h))) = true).
  { rewrite Hp. apply Fn_isDiffText_spec. auto. }
  destruct (f _ _ _) eqn:Hr; rewrite <- Hp in Hr.
  - rewrite Fn_tick_eq, (Fn_tick_text_fires options h v f Hf Hd Hr), Fn_tick_image_eq.
    rewrite Hg. cbv zeta.
    simpl clip_image. simpl Fn.beforeImage.
    rewrite Hb, isDiffImage_same, (isDiffImage_changed b _ He Hu), Hp.
    simpl truthy. cbv iota.
    destruct (g _ _ _); simpl; now rewrite <- !app_assoc.
  - rewrite (Fn_text_raises options h v f Hf Hd Hr). simpl. rewrite Hp, <- app_assoc.
    auto.
Qed.

(** X10: a tick handles the text before the image.  When both the text and
    the image changed, a returning [textChange] is followed, in the same
    tick, by the image read and the [imageChange] call; a raising
    [textChange] ends the tick before the image is even read, and the
    last-known image stays. *)
Theorem X10_text_before_image
  (options : Options.t) (h : Host) (o : Cls.ClipboardObserver) (v : Fn.Vars)
  (f : TextCallback) (g : ImageCallback) (p : string) (b : NativeImage) :
  p <> "" ->
  clip_text h <> "" -> clip_text h <> p ->
  isEmpty (clip_image h) = false -> toDataURL (clip_image h) <> toDataURL b ->
  (Cls.textChange o = Some f -> Cls.imageChange o = Some g ->
   Cls.beforeText o = VString p -> Cls.beforeImage o = Some b ->
   match f (trace h ++ [ReadText]) (clip_text h) (VString p) with
   | Returns =>
       trace (fst (snd (Cls.tick (h, o)))) =
       trace h ++ [ReadText; TextChange (clip_text h) (VString p);
                   ReadImage; ImageChange (clip_image h) (Some b)]
   | Raises =>
       trace (fst (snd (Cls.tick (h, o)))) =
       trace h ++ [ReadText; TextChange (clip_text h) (VString p)]
       /\ Cls.beforeImage (snd (snd (Cls.tick (h, o)))) = Some b
   end)
  /\
  (Options.textChange options = Some f -> Options.imageChange options = Some g ->
   Fn.beforeText v = VString p -> Fn.beforeImage v = Some b ->
   match f (trace h ++ [ReadText]) (clip_text h) (VString p) with
   | Returns =>
       trace (fst (snd (Fn.tick options (h, v)))) =
       trace h ++ [ReadText; TextChange (clip_text h) (VString p);
                   ReadImage; ImageChange (clip_image h) (Some b)]
   | Raises =>
       trace (fst (snd (Fn.tick options (h, v)))) =
       trace h ++ [ReadText; TextChange (clip_text h) (VString p)]
       /\ Fn.beforeImage (snd (snd (Fn.tick options (h, v)))) = Some b
   end).
Proof.
  intros Hp Hne Hdf He Hu. split.
  - intros Hf Hg Ht Hb. now apply (Cls_both_channels h o f g p b).
  - intros Hf Hg Ht Hb. now apply (Fn_both_channels options h v f g p b).
Qed.

Lemma X10_text_before_image_witness :
  trace (fst (snd (Cls.tick (ex_host, ex_ok_observer)))) =
  [ReadText; TextChange "B" (VString "A"); ReadImage; ImageChange img_two (Some img_one)]
  /\ trace (fst (snd (Fn.tick ex_ok_options (ex_host, ex_vars)))) =
     [ReadText; TextChange "B" (VString "A"); ReadImage; ImageChange img_two (Some img_one)].
Proof.
  destruct (X10_text_before_image
              ex_ok_options ex_host ex_ok_observer ex_vars
              text_ok image_ok "A" img_one)
    as [Hc Hf]; [discriminate | discriminate | discriminate | reflexivity | discriminate |].
  split.
  - exact (Hc eq_refl eq_refl eq_refl eq_refl).
  - exact (Hf eq_refl eq_refl eq_refl eq_refl).
Defined.

(** ** Cancelling *)

Lemma active_after_clear (l : list (nat * jsnum)) (id t : nat) :
  existsb (fun p => Nat.eqb (fst p) id)
          (filter (fun p => negb (Nat.eqb (fst p) t)) l)
  = existsb (fun p => Nat.eqb (fst p) id) l && negb (Nat.eqb id t).
Proof.
  induction l as [|[i d] l IH]; simpl; [reflexivity|].
  destruct (Nat.eqb_spec i t) as [->|Hit]; simpl.
  - rewrite IH. destruct (Nat.eqb_spec t id) as [->|Hti]; simpl.
    + rewrite Nat.eqb_refl. simpl. now rewrite andb_false_r.
    + reflexivity.
  - rewrite IH. destruct (Nat.eqb_spec i id) as [->|Hii]; simpl; [|reflexivity].
    destruct (Nat.eqb_spec id t); [congruence|reflexivity].
Qed.

Lemma Cls_clearTimer_active (s : Host * Cls.ClipboardObserver) (id : nat) :
  active id (fst (snd (Cls.clearTimer s)))
  = active id (fst s)
    && match Cls.timer (snd s) with
       | Some t => negb (Nat.eqb id t)
       | None => true
       end.
Proof.
  unfold Cls.clearTimer, bind, get, clearInterval, active. simpl.
  destruct (Cls.timer (snd s)) as [t|]; simpl.
  - apply active_after_clear.
  - now rewrite andb_true_r.
Qed.

(** X11: [clearTimer()] of the class and [destroy()] of [src/index.js]
    return normally, cancel exactly the task whose handle is stored in
    [timer] (none when it is [undefined] or already cancelled), leave every
    other task active, and touch neither the observer nor the clipboard. *)
Theorem X11_cancel_only_the_stored_handle
  (s : Host * Cls.ClipboardObserver) (u : Host * Fn.Vars) (id : nat) :
  (fst (Cls.clearTimer s) = Ok tt
   /\ snd (snd (Cls.clearTimer s)) = snd s
   /\ trace (fst (snd (Cls.clearTimer s))) = trace (fst s)
   /\ active id (fst (snd (Cls.clearTimer s)))
      = active id (fst s)
        && match Cls.timer (snd s) with
           | Some t => negb (Nat.eqb id t)
           | None => true
           end)
  /\
  (fst (Fn.destroy u) = Ok tt
   /\ snd (snd (Fn.destroy u)) = snd u
   /\ trace (fst (snd (Fn.destroy u))) = trace (fst u)
   /\ active id (fst (snd (Fn.destroy u)))
      = active id (fst u)
        && match Fn.timer (snd u) with
           | Some t => negb (Nat.eqb id t)
           | None => true
           end).
Proof.
  split.
  - repeat split; try (unfold Cls.clearTimer, bind, get, clearInterval;
                       destruct (Cls.timer (snd s)); reflexivity).
    apply Cls_clearTimer_active.
  - repeat split; try (unfold Fn.destroy, bind, get, clearInterval;
                       destruct (Fn.timer (snd u)); reflexivity).
    unfold Fn.destroy, bind, get, clearInterval, active. simpl.
    destruct (Fn.timer (snd u)) as [t|]; simpl.
    + apply active_after_clear.
    + now rewrite andb_true_r.
Qed.

Lemma Cls_exec_keeps_lost_timer (op : Cls.op) (s : Host * Cls.ClipboardObserver)
  (id : nat) :
  active id (fst s) = true ->
  id < next_id (fst s) ->
  Cls.timer (snd s) <> Some id ->
  active id (fst (Cls.exec op s)) = true
  /\ id < next_id (fst (Cls.exec op s))
  /\ Cls.timer (snd (Cls.exec op s)) <> Some id.
Proof.
  intros Ha Hlt Ht. destruct op as [| | |i|text image]; cbn [Cls.exec].
  - split; [|split].
    + unfold active in *. rewrite Cls_start_intervals, existsb_app, Ha. reflexivity.
    + rewrite Cls_start_next_id. lia.
    + rewrite Cls_start_eq. simpl. intro H. injection H as H. lia.
  - unfold Cls.stop. rewrite Cls_setTimer_eq. simpl. split; [|split].
    + unfold active in *. simpl. rewrite existsb_app, Ha. reflexivity.
    + lia.
    + intro H. injection H as H. lia.
  - split; [|split].
    + rewrite Cls_clearTimer_active, Ha. simpl.
      destruct (Cls.timer (snd s)) as [t|]; [|reflexivity].
      destruct (Nat.eqb_spec id t); [congruence|reflexivity].
    + unfold Cls.clearTimer, bind, get, clearInterval.
      destruct (Cls.timer (snd s)); exact Hlt.
    + unfold Cls.clearTimer, bind, get, clearInterval. cbn [fst snd].
      destruct (Cls.timer (snd s)) eqn:E; cbn [fst snd]; rewrite ?E; exact Ht.
  - destruct (active i (fst s)); [|auto].
    destruct (Cls_tick_frame s) as (_ & _ & Hi & Hn & Htm & _). cbv zeta in *.
    unfold active in *. rewrite Hi, Hn, Htm. auto.
  - auto.
Qed.

(** X12: a timer whose handle is no longer the one stored in [this.timer]
    can never be cancelled again: [start()] and [stop()] only store newer
    handles and [clearTimer()] cancels only the stored one, so the timer
    stays active through every later sequence of method calls and ticks. *)
Theorem X12_overwritten_timer_never_cancelled
  (s : Host * Cls.ClipboardObserver) (id : nat) (ops : list Cls.op) :
  active id (fst s) = true ->
  id < next_id (fst s) ->
  Cls.timer (snd s) <> Some id ->
  active id (fst (Cls.run ops s)) = true.
Proof.
  revert s. induction ops as [|op ops IH]; intros s Ha Hlt Ht; [exact Ha|].
  unfold Cls.run in *. simpl.
  destruct (Cls_exec_keeps_lost_timer op s id Ha Hlt Ht) as (H1 & H2 & H3).
  now apply IH.
Qed.

Lemma X12_overwritten_timer_witness :
  active 0 (fst (Cls.run [Cls.ClearTimer; Cls.Start; Cls.ClearTimer; Cls.ClearTimer]
                         ex_started_twice)) = true.
Proof.
  apply (X12_overwritten_timer_never_cancelled ex_started_twice 0).
  - reflexivity.
  - unfold ex_started_twice. simpl. lia.
  - discriminate.
Defined.

Lemma Fn_exec_without_timers (options : Options.t) (op : Fn.op) (s : Host * Fn.Vars) :
  intervals (fst s) = [] ->
  intervals (fst (Fn.exec options op s)) = []
  /\ trace (fst (Fn.exec options op s)) = trace (fst s)
  /\ snd (Fn.exec options op s) = snd s.
Proof.
  intro H. destruct op as [|id|text image]; simpl.
  - unfold Fn.destroy, bind, get, clearInterval.
    destruct (Fn.timer (snd s)); simpl; rewrite ?H; auto.
  - unfold active. rewrite H. simpl. auto.
  - auto.
Qed.

(** X13: [destroy()] is final.  For an observer created on a host with no
    other timers, after [destroy()] no timer is active, and whatever follows
    (ticks that were due, clipboard writes, further [destroy()] calls) the
    clipboard is never read again, no callback is invoked and the last-known
    values stay. *)
Theorem X13_destroy_is_final
  (option : Options.t) (h : Host) (ops : list Fn.op) :
  intervals h = [] ->
  let s := snd (Fn.destroy (Fn.create option h)) in
  intervals (fst s) = []
  /\ intervals (fst (Fn.run (Fn.merged option) ops s)) = []
  /\ trace (fst (Fn.run (Fn.merged option) ops s)) = trace (fst s)
  /\ snd (Fn.run (Fn.merged option) ops s) = snd s.
Proof.
  intro H. cbv zeta.
  pose proof (Fn_destroy_after_create option h H) as H0.
  split; [exact H0|].
  revert H0. generalize (snd (Fn.destroy (Fn.create option h))).
  induction ops as [|op ops IH]; intros s Hs; [auto|].
  unfold Fn.run in *. simpl.
  destruct (Fn_exec_without_timers (Fn.merged option) op s Hs) as (H1 & H2 & H3).
  destruct (IH _ H1) as (K1 & K2 & K3).
  rewrite K1, K2, K3, H2, H3. auto.
Qed.

Lemma X13_destroy_is_final_witness :
  let s := snd (Fn.destroy (Fn.create ex_ok_options (fresh "A" img_one))) in
  intervals (fst s) = []
  /\ intervals (fst (Fn.run (Fn.merged ex_ok_options)
                            [Fn.Copy "B" img_two; Fn.Tick 0; Fn.Destroy] s)) = []
  /\ trace (fst (Fn.run (Fn.merged ex_ok_options)
                        [Fn.Copy "B" img_two; Fn.Tick 0; Fn.Destroy] s))
     = trace (fst s)
  /\ snd (Fn.run (Fn.merged ex_ok_options)
                 [Fn.Copy "B" img_two; Fn.Tick 0; Fn.Destroy] s) = snd s.
Proof.
  exact (X13_destroy_is_final ex_ok_options (fresh "A" img_one)
           [Fn.Copy "B" img_two; Fn.Tick 0; Fn.Destroy] eq_refl).
Defined.

(** ** Configuration *)

(** X14: a [duration] given in the options reaches [setInterval] unchanged
    in both variants, whatever it is: neither variant validates it, so zero,
    a negative number or an explicit [undefined] is passed through. *)
Theorem X14_explicit_duration_passed_through
  (d : jsnum) (f : option TextCallback) (g : option ImageCallback) (h : Host) :
  either f g = true ->
  intervals (fst (Fn.create (Options.mk (Present d) f g) h))
  = intervals h ++ [(next_id h, d)]
  /\ intervals (fst (Cls.create (Options.mk (Present d) f g) h))
     = intervals h ++ [(next_id h, d)]
  /\ Cls.duration (snd (Cls.create (Options.mk (Present d) f g) h)) = d.
Proof.
  intro H. split; [|split].
  - destruct (Fn_create_seeds (Options.mk (Present d) f g) h)
      as (_ & _ & _ & _ & _ & Hi & _).
    cbv zeta in Hi. cbn [Options.textChange Options.imageChange] in Hi.
    rewrite Hi, H. reflexivity.
  - rewrite Cls_create_eq. cbv zeta. cbn [Options.textChange Options.imageChange].
    rewrite H, Cls_start_intervals. reflexivity.
  - rewrite Cls_create_eq. cbv zeta. cbn [Options.textChange Options.imageChange].
    rewrite H, Cls_start_duration. reflexivity.
Qed.

Lemma X14_explicit_duration_witness :
  intervals (fst (Fn.create (Options.mk (Present (Some (-1)%Z)) (Some text_ok) None)
                            (fresh "A" img_one)))
  = [(0, Some (-1)%Z)]
  /\ intervals (fst (Cls.create (Options.mk (Present (Some (-1)%Z)) (Some text_ok) None)
                                (fresh "A" img_one)))
     = [(0, Some (-1)%Z)]
  /\ Cls.duration (snd (Cls.create (Options.mk (Present (Some (-1)%Z)) (Some text_ok) None)
                                   (fresh "A" img_one))) = Some (-1)%Z.
Proof.
  exact (X14_explicit_duration_passed_through
           (Some (-1)%Z) (Some text_ok) None (fresh "A" img_one) eq_refl).
Defined.

(** ** An observer of [src/index.js] created on a clipboard without text *)

Lemma Fn_isDiffText_empty_previous (a : jsval) :
  truthy (Fn.isDiffText (VString "") a) = false.
Proof. reflexivity. Qed.

Lemma text_calls_seed {A B} (f : option A) (g : option B) (tr : list event) :
  text_calls (tr ++ seed_events f g) = text_calls tr.
Proof.
  unfold text_calls, seed_events. rewrite filter_app.
  destruct f, g; simpl; now rewrite app_nil_r.
Qed.

Lemma Fn_exec_empty_previous (options : Options.t) (op : Fn.op) (s : Host * Fn.Vars) :
  Fn.beforeText (snd s) = VString "" ->
  Fn.beforeText (snd (Fn.exec options op s)) = VString ""
  /\ text_calls (trace (fst (Fn.exec options op s))) = text_calls (trace (fst s)).
Proof.
  intro H. destruct op as [|id|text image]; cbn [Fn.exec].
  - unfold Fn.destroy, bind, get, clearInterval.
    destruct (Fn.timer (snd s)); auto.
  - destruct (active id (fst s)); [|auto].
    destruct s as [h v]. cbn [fst snd] in *.
    destruct (Fn_tick_text_part options (h, v)) as [E1 E2].
    destruct (Fn_tick_text_silent options h v) as (_ & G2 & G3).
    { rewrite H. apply Fn_isDiffText_empty_previous. }
    rewrite E1, E2, G2, G3. auto.
  - auto.
Qed.

(** X15: an observer of [src/index.js] created while the clipboard holds no
    text never invokes [textChange], whatever is copied later: its
    last-known text stays empty and the predicate needs a non-empty one. *)
Theorem X15_Fn_created_without_text_stays_silent
  (d : prop jsnum) (f : TextCallback) (g : option ImageCallback)
  (h : Host) (ops : list Fn.op) :
  clip_text h = "" ->
  let options := Options.mk d (Some f) g in
  text_calls (trace (fst (Fn.run (Fn.merged options) ops (Fn.create options h))))
  = text_calls (trace h)
  /\ Fn.beforeText (snd (Fn.run (Fn.merged options) ops (Fn.create options h)))
     = VString "".
Proof.
  intro He. cbv zeta.
  destruct (Fn_create_seeds (Options.mk d (Some f) g) h) as (Htr & Hbt & _).
  cbv zeta in Htr, Hbt. cbn [Options.textChange Options.imageChange] in Htr, Hbt.
  simpl configured in Hbt. cbv iota in Hbt. rewrite He in Hbt.
  rewrite <- (text_calls_seed (Some f) g (trace h)), <- Htr.
  revert Hbt. generalize (Fn.create (Options.mk d (Some f) g) h).
  generalize (Fn.merged (Options.mk d (Some f) g)).
  intros options s. revert s.
  induction ops as [|op ops IH]; intros s Hs; [auto|].
  unfold Fn.run in *. simpl.
  destruct (Fn_exec_empty_previous options op s Hs) as [H1 H2].
  destruct (IH _ H1) as [K1 K2]. rewrite K1, K2, H2. auto.
Qed.

Lemma X15_Fn_created_without_text_witness :
  text_calls
    (trace (fst (Fn.run (Fn.merged (Options.mk Absent (Some text_ok) None))
                        [Fn.Copy "A" img_empty; Fn.Tick 0; Fn.Copy "B" img_empty; Fn.Tick 0]
                        (Fn.create (Options.mk Absent (Some text_ok) None)
                                   (fresh "" img_empty))))) = [].
Proof.
  exact (proj1 (X15_Fn_created_without_text_stays_silent
                  Absent text_ok None (fresh "" img_empty)
                  [Fn.Copy "A" img_empty; Fn.Tick 0; Fn.Copy "B" img_empty; Fn.Tick 0]
                  eq_refl)).
Defined.

(** ** What ticks and operations leave alone *)


Lemma filter_length_le {A} (p : A -> bool) (l : list A) :
  length (filter p l) <= length l.
Proof.
  induction l as [|a l IH]; simpl; [lia|]. destruct (p a); simpl; lia.
Qed.

Lemma Fn_exec_schedules_nothing (options : Options.t) (op : Fn.op) (s : Host * Fn.Vars) :
  next_id (fst (Fn.exec options op s)) = next_id (fst s)
  /\ length (intervals (fst (Fn.exec options op s))) <= length (intervals (fst s)).
Proof.
  destruct op as [|id|text image]; cbn [Fn.exec].
  - unfold Fn.destroy, bind, get, clearInterval.
    destruct (Fn.timer (snd s)); simpl; split; auto. apply filter_length_le.
  - destruct (active id (fst s)); [|auto].
    destruct (Fn_tick_frame options s) as (_ & _ & Hi & Hn & _).
    cbv zeta in *. rewrite Hi, Hn. auto.
  - auto.
Qed.

(** X17: [src/index.js] calls [setInterval] once, in [clipboardObserver]
    itself: after construction no tick, [destroy()] or clipboard write ever
    schedules a timer, so an observer owns at most the one timer it was
    created with. *)
Theorem X17_Fn_schedules_at_most_one_timer
  (option : Options.t) (h : Host) (ops : list Fn.op) :
  let s := Fn.run (Fn.merged option) ops (Fn.create option h) in
  next_id (fst s) = next_id (fst (Fn.create option h))
  /\ next_id (fst s) <= S (next_id h)
  /\ length (intervals (fst s)) <= S (length (intervals h)).
Proof.
  cbv zeta.
  assert (G : forall (s : Host * Fn.Vars),
             next_id (fst (Fn.run (Fn.merged option) ops s)) = next_id (fst s)
             /\ length (intervals (fst (Fn.run (Fn.merged option) ops s)))
                <= length (intervals (fst s))).
  { induction ops as [|op ops IH]; intro s; [auto|].
    unfold Fn.run in *. simpl.
    destruct (Fn_exec_schedules_nothing (Fn.merged option) op s) as [H1 H2].
    destruct (IH (Fn.exec (Fn.merged option) op s)) as [K1 K2].
    split; [congruence|lia]. }
  destruct (G (Fn.create option h)) as [G1 G2].
  split; [exact G1|].
  assert (C : next_id (fst (Fn.create option h)) <= S (next_id h)
              /\ length (intervals (fst (Fn.create option h)))
                 <= S (length (intervals h))).
  { destruct option as [d f g].
    unfold Fn.create, Fn.clipboardObserver, bind.
    destruct f, g; simpl; rewrite ?length_app; simpl; lia. }
  destruct C as [C1 C2]. split; lia.
Qed.

(** X18: in [src/index.js] an options object without [duration] gets the
    default: when a callback is configured the timer is scheduled with a
    delay of 500, and an explicit [duration] replaces the default. *)
Theorem X18_Fn_default_duration
  (f : option TextCallback) (g : option ImageCallback) (h : Host) :
  either f g = true ->
  intervals (fst (Fn.create (Options.mk Absent f g) h))
  = intervals h ++ [(next_id h, Some 500%Z)]
  /\ Fn.timer (snd (Fn.create (Options.mk Absent f g) h)) = Some (next_id h)
  /\ forall d, Options.duration (Fn.merged (Options.mk (Present d) f g)) = Present d.
Proof.
  intro H.
  destruct (Fn_create_seeds (Options.mk Absent f g) h)
    as (_ & _ & _ & _ & _ & Hi & Ht).
  cbv zeta in Hi, Ht. cbn [Options.textChange Options.imageChange] in Hi, Ht.
  rewrite Hi, Ht, H. repeat split.
Qed.

Lemma X18_Fn_default_duration_witness :
  intervals (fst (Fn.create (Options.mk Absent None (Some image_ok)) (fresh "A" img_one)))
  = [(0, Some 500%Z)].
Proof.
  exact (proj1 (X18_Fn_default_duration None (Some image_ok) (fresh "A" img_one) eq_refl)).
Defined.
